(** * Habit tracker: store, undo buffer, statistics and state endpoint

    A shallow embedding of the habit-tracking dashboard
    ([src/App.tsx], [src/types.ts]) and of the handler of its state
    endpoint ([onRequestGet]), with the properties of its specification.

    Conventions of the embedding.
    - A JavaScript object used as a dictionary is a [gmap] over its own
      properties; a property holding [undefined] is a key that is present,
      and a read of a key that is not an own property goes on to
      [Object.prototype].
    - A JavaScript string is a Rocq [string]; each character stands for the
      UTF-16 code unit of the same number (0..255).
    - A JavaScript [number] is an IEEE 754 binary64 value, [spec_float] at
      precision 53 and maximal exponent 1024.  The counters that the
      statistics increment by one are natural numbers: they stay far below
      2^53, where [+= 1] on a binary64 is exact.
    - React state is passed explicitly: a handler is a function from the
      state it was rendered with to the state after its updates. *)

From Stdlib Require Import ZArith Lia Bool Ascii String DecimalString.
From Stdlib Require Import QArith Qpower Lqa.
From Stdlib Require Import SpecFloat.
From stdpp Require Import base option list gmap strings.

Local Open Scope string_scope.
Local Open Scope list_scope.
Local Open Scope Z_scope.
Local Open Scope nat_scope.

(** ** [src/types.ts] *)

Record Habit := mkHabit { id : string; name : string }.

(** [HabitStatus = boolean | 'skipped' | undefined] *)
Inductive HabitStatus :=
| StTrue
| StFalse
| StSkipped
| StUndefined.

#[global] Instance HabitStatus_eq_dec : EqDecision HabitStatus.
Proof. solve_decision. Defined.

#[global] Instance Habit_eq_dec : EqDecision Habit.
Proof. solve_decision. Defined.

(** [HabitCompletion]: date key, then habit id, then status. *)
Abbreviation DayCompletion := (gmap string HabitStatus).
Abbreviation HabitCompletion := (gmap string (gmap string HabitStatus)).

Definition INITIAL_HABITS : list Habit :=
  [ mkHabit "1" "Get up at 5:00 AM";
    mkHabit "2" "All prayers in time";
    mkHabit "3" "Study for govt 1 hour";
    mkHabit "4" "Road to Data Analyst 2 hours";
    mkHabit "5" "Business plan and execute 2 hours";
    mkHabit "6" "MMA (Sat, Sun)";
    mkHabit "7" "Being reserve";
    mkHabit "8" "GYM";
    mkHabit "9" "Shower";
    mkHabit "10" "Daily task";
    mkHabit "11" "Project";
    mkHabit "12" "Perseverance";
    mkHabit "13" "No screentime & social accounts";
    mkHabit "14" "No waste of time";
    mkHabit "15" "Sleep at 11:00 PM" ].

(** ** JavaScript values the handlers rely on *)

Module JS.

(** *** Strings: [String.prototype.trim] *)

(** White space and line terminators among the code units 0..255:
    TAB, LF, VT, FF, CR, SP and NBSP. *)
Definition isWhiteSpace (c : ascii) : bool :=
  let n := nat_of_ascii c in
  ((9 <=? n) && (n <=? 13)) || (n =? 32) || (n =? 160).

Fixpoint trimStart (s : string) : string :=
  match s with
  | EmptyString => EmptyString
  | String c s' => if isWhiteSpace c then trimStart s' else s
  end.

Definition reverse (s : string) : string :=
  string_of_list_ascii (rev (list_ascii_of_string s)).

Definition trimEnd (s : string) : string := reverse (trimStart (reverse s)).

Definition trim (s : string) : string := trimEnd (trimStart s).

(** Truthiness of a string: only the empty string is falsy. *)
Definition truthy_string (s : string) : bool :=
  match s with EmptyString => false | _ => true end.

(** *** Objects: the properties of [Object.prototype] *)

(** The names every object made by an object literal or by [JSON.parse]
    inherits from [Object.prototype].  Each of them reads as a function,
    ["__proto__"] as the prototype object itself. *)
Definition objectPrototypeNames : list string :=
  [ "constructor"; "hasOwnProperty"; "isPrototypeOf"; "propertyIsEnumerable";
    "toLocaleString"; "toString"; "valueOf"; "__proto__";
    "__defineGetter__"; "__defineSetter__";
    "__lookupGetter__"; "__lookupSetter__" ].

Definition inherited (key : string) : bool :=
  bool_decide (key ∈ objectPrototypeNames).

(** *** Numbers: binary64 *)

Definition prec : Z := 53.
Definition emax : Z := 1024.

Abbreviation number := spec_float.

(** The number denoted by an integer literal or held by an integer
    counter (rounded to nearest even when it has more than 53 bits). *)
Definition of_Z (z : Z) : number := binary_normalize prec emax z 0 false.
Definition of_nat (n : nat) : number := of_Z (Z.of_nat n).

Definition div (x y : number) : number := SFdiv prec emax x y.
Definition mul (x y : number) : number := SFmul prec emax x y.
Definition sub (x y : number) : number := SFsub prec emax x y.

(** [Math.round]: the integer nearest to [x], a tie going towards
    +infinity; zeros, infinities and NaN are returned as they are, and a
    result of zero keeps the sign of [x]. *)
Definition round_half_up (s : bool) (m : positive) (e : Z) : Z :=
  let v := cond_Zopp s (Zpos m) in
  match e with
  | Zneg p => ((2 * v + 2 ^ Zpos p) / 2 ^ (Zpos p + 1))%Z
  | _ => (v * 2 ^ e)%Z
  end.

Definition Math_round (x : number) : number :=
  match x with
  | S754_finite s m e =>
      let z := round_half_up s m e in
      if (z =? 0)%Z then S754_zero s else of_Z z
  | _ => x
  end.

End JS.

(** ** Calendar dates and [date-fns] *)

(** A local calendar date; [month] is the index 0..11 of [Date.getMonth]. *)
Record Date := mkDate { year : nat; month : nat; day : nat }.

Module DateFns.

(** [addLeadingZeros]: decimal digits, padded on the left with zeros. *)
Definition addLeadingZeros (n targetLength : nat) : string :=
  let s := NilZero.string_of_uint (Nat.to_uint n) in
  string_of_list_ascii
    (replicate (targetLength - String.length s) "0"%char) +:+ s.

Definition isLeapYear (y : nat) : bool :=
  ((y mod 4 =? 0) && negb (y mod 100 =? 0)) || (y mod 400 =? 0).

(** Number of days of month [m] (0 = January) of year [y]. *)
Definition getDaysInMonth (y m : nat) : nat :=
  match m with
  | 1 => if isLeapYear y then 29 else 28
  | 3 | 5 | 8 | 10 => 30
  | _ => 31
  end.

(** [eachDayOfInterval({start: startOfMonth(d), end: endOfMonth(d)})] *)
Definition eachDayOfMonth (d : Date) : list Date :=
  map (fun i => mkDate (year d) (month d) (S i))
      (seq 0 (getDaysInMonth (year d) (month d))).

(** [format(d, 'yyyy-MM-dd')]; the year 0 is printed as year 1 (BC). *)
Definition format_yyyy_MM_dd (d : Date) : string :=
  addLeadingZeros (if year d =? 0 then 1 else year d) 4 +:+ "-" +:+
  addLeadingZeros (S (month d)) 2 +:+ "-" +:+
  addLeadingZeros (day d) 2.

(** [format(d, 'd')] *)
Definition format_d (d : Date) : string := addLeadingZeros (day d) 1.

End DateFns.


(** ** [src/App.tsx]: state *)

(** An entry of the undo history. *)
Record Snapshot := mkSnapshot {
  snap_habits : list Habit;
  snap_completions : HabitCompletion
}.

(** The [useState] cells of [App] that the handlers read or write. *)
Record AppState := mkState {
  currentDate : Date;
  habits : list Habit;
  completions : HabitCompletion;
  history : list Snapshot;
  editingHabitId : option string;
  editValue : string;
  isAdding : bool;
  newValue : string
}.

Definition setHabits (f : list Habit -> list Habit) (st : AppState) : AppState :=
  mkState (currentDate st) (f (habits st)) (completions st) (history st)
          (editingHabitId st) (editValue st) (isAdding st) (newValue st).

Definition setCompletions (f : HabitCompletion -> HabitCompletion)
    (st : AppState) : AppState :=
  mkState (currentDate st) (habits st) (f (completions st)) (history st)
          (editingHabitId st) (editValue st) (isAdding st) (newValue st).

Definition setHistory (f : list Snapshot -> list Snapshot)
    (st : AppState) : AppState :=
  mkState (currentDate st) (habits st) (completions st) (f (history st))
          (editingHabitId st) (editValue st) (isAdding st) (newValue st).

Definition setEditingHabitId (v : option string) (st : AppState) : AppState :=
  mkState (currentDate st) (habits st) (completions st) (history st)
          v (editValue st) (isAdding st) (newValue st).

Definition setEditValue (v : string) (st : AppState) : AppState :=
  mkState (currentDate st) (habits st) (completions st) (history st)
          (editingHabitId st) v (isAdding st) (newValue st).

Definition setIsAdding (v : bool) (st : AppState) : AppState :=
  mkState (currentDate st) (habits st) (completions st) (history st)
          (editingHabitId st) (editValue st) v (newValue st).

Definition setNewValue (v : string) (st : AppState) : AppState :=
  mkState (currentDate st) (habits st) (completions st) (history st)
          (editingHabitId st) (editValue st) (isAdding st) v.

(** The state [App] starts with. *)
Definition initialState (today : Date) : AppState :=
  mkState today INITIAL_HABITS ∅ [] None "" false "".

(** ** Undo history *)

(** [JSON.parse(JSON.stringify(v))].  A habit is two strings and is copied
    as it is; in an object, [JSON.stringify] leaves out every property
    whose value is [undefined]. *)
Definition JSON_clone_habits (hs : list Habit) : list Habit :=
  map (fun h => mkHabit (id h) (name h)) hs.

Definition JSON_clone_day (d : gmap string HabitStatus) : gmap string HabitStatus :=
  omap (fun v => match v with StUndefined => None | _ => Some v end) d.

Definition JSON_clone_completions (c : HabitCompletion) : HabitCompletion :=
  JSON_clone_day <$> c.

Definition pushToHistory (currentHabits : list Habit)
    (currentCompletions : HabitCompletion) (prev : list Snapshot) : list Snapshot :=
  let newHistory :=
    prev ++ [mkSnapshot (JSON_clone_habits currentHabits)
                        (JSON_clone_completions currentCompletions)] in
  if 50 <? length newHistory then drop 1 newHistory else newHistory.

Definition undo (st : AppState) : AppState :=
  match last (history st) with
  | None => st
  | Some lastState =>
      setHistory (fun prev => take (length prev - 1) prev)
        (setCompletions (fun _ => snap_completions lastState)
          (setHabits (fun _ => snap_habits lastState) st))
  end.

(** ** Habit list handlers *)

(** [newId] is what [crypto.randomUUID()] returned for this call. *)
Definition addHabit (newId : string) (st : AppState) : AppState :=
  if negb (JS.truthy_string (JS.trim (newValue st))) then st
  else
    let newHabit := mkHabit newId (JS.trim (newValue st)) in
    setIsAdding false
      (setNewValue ""
        (setHabits (fun prev => prev ++ [newHabit])
          (setHistory (pushToHistory (habits st) (completions st)) st))).

Definition deleteHabit (id0 : string) (st : AppState) : AppState :=
  setHabits (fun prev => filter (fun h => id h ≠ id0) prev)
    (setHistory (pushToHistory (habits st) (completions st)) st).

Definition startEditing (habit : Habit) (st : AppState) : AppState :=
  setEditValue (name habit) (setEditingHabitId (Some (id habit)) st).

Definition saveEdit (st : AppState) : AppState :=
  if negb (JS.truthy_string (JS.trim (editValue st))) then st
  else
    setEditingHabitId None
      (setHabits
         (fun prev =>
            map (fun h => if decide (Some (id h) = editingHabitId st)
                          then mkHabit (id h) (JS.trim (editValue st))
                          else h) prev)
         (setHistory (pushToHistory (habits st) (completions st)) st)).

(** ** Completion log *)

(** What a property read of a day's object gives: a status, or a member
    of [Object.prototype]. *)
Inductive PropertyValue :=
| Value (s : HabitStatus)
| Inherited.

#[global] Instance PropertyValue_eq_dec : EqDecision PropertyValue.
Proof. solve_decision. Defined.

(** [dayCompletions[habitId]]: the own property; when there is none, the
    member of [Object.prototype] of that name; when there is none either,
    [undefined]. *)
Definition readProperty (dayCompletions : gmap string HabitStatus)
    (habitId : string) : PropertyValue :=
  match dayCompletions !! habitId with
  | Some s => Value s
  | None => if JS.inherited habitId then Inherited else Value StUndefined
  end.

(** [completions[dateKey]?.[habitId]] and [prev[dateKey]?.[habitId]].
    The key is that of a date, [format(date, 'yyyy-MM-dd')], at every
    read of the program; such a key holds a ['-'] and is not the name of a
    member of [Object.prototype], so without an own property of that key
    the chain stops at [undefined]. *)
Definition getStatus (c : HabitCompletion) (dateKey habitId : string)
    : PropertyValue :=
  match c !! dateKey with
  | None => Value StUndefined
  | Some dayCompletions => readProperty dayCompletions habitId
  end.

(** Truthiness: [true], ['skipped'] and the members of [Object.prototype]
    are truthy; [false] and [undefined] are not. *)
Definition truthy (v : PropertyValue) : bool :=
  match v with
  | Value StTrue | Value StSkipped | Inherited => true
  | Value StFalse | Value StUndefined => false
  end.

Definition nextStatus (currentStatus : PropertyValue) : HabitStatus :=
  if negb (truthy currentStatus) then StTrue
  else if decide (currentStatus = Value StTrue) then StSkipped
  else StUndefined.

(** The updater passed to [setCompletions] by [cycleHabitState]. *)
Definition cycleCompletions (dateKey habitId : string)
    (prev : HabitCompletion) : HabitCompletion :=
  let currentStatus := getStatus prev dateKey habitId in
  <[dateKey := <[habitId := nextStatus currentStatus]>
                 (default ∅ (prev !! dateKey))]> prev.

Definition cycleHabitState (date : Date) (habitId : string)
    (st : AppState) : AppState :=
  let dateKey := DateFns.format_yyyy_MM_dd date in
  setCompletions (cycleCompletions dateKey habitId)
    (setHistory (pushToHistory (habits st) (completions st)) st).

(** ** Statistics *)

(** [total === 0 ? 0 : Math.round((count / total) * 100)] *)
Definition percentageOf (count total : nat) : JS.number :=
  if total =? 0 then JS.of_Z 0
  else JS.Math_round
         (JS.mul (JS.div (JS.of_nat count) (JS.of_nat total)) (JS.of_Z 100)).

(** The loop body the four statistics share, on the pair of counters
    (completed, possible):
    [if (status !== 'skipped') { total += 1; if (status === true) count += 1; }] *)
Definition tally (status : PropertyValue) (acc : nat * nat) : nat * nat :=
  let '(count, total) := acc in
  if decide (status ≠ Value StSkipped)
  then (if decide (status = Value StTrue) then count + 1 else count, total + 1)
  else (count, total).

(** [completions[dateKey] || {}] and [dayCompletions[habit.id]] *)
Definition dayCompletionsOf (c : HabitCompletion) (dateKey : string)
    : gmap string HabitStatus :=
  default ∅ (c !! dateKey).

Definition dayStatus (dayCompletions : gmap string HabitStatus)
    (habitId : string) : PropertyValue :=
  readProperty dayCompletions habitId.

(** [daysInMonth], memoised on [currentDate]. *)
Definition daysInMonth (st : AppState) : list Date :=
  DateFns.eachDayOfMonth (currentDate st).

Record HabitStats := mkHabitStats {
  hs_count : nat;
  hs_total : nat;
  hs_percentage : JS.number
}.

Definition getHabitStats (days : list Date) (c : HabitCompletion)
    (habitId : string) : HabitStats :=
  let '(count, total) :=
    fold_left
      (fun acc day =>
         tally (getStatus c (DateFns.format_yyyy_MM_dd day) habitId) acc)
      days (0, 0) in
  mkHabitStats count total (percentageOf count total).

(** The inner [habits.forEach] of the three rollups, for one day. *)
Definition tallyDay (hs : list Habit) (c : HabitCompletion) (day : Date)
    (acc : nat * nat) : nat * nat :=
  let dayCompletions := dayCompletionsOf c (DateFns.format_yyyy_MM_dd day) in
  fold_left (fun acc habit => tally (dayStatus dayCompletions (id habit)) acc)
            hs acc.

Record DailyProgress := mkDailyProgress {
  dp_day : string;
  dp_percentage : JS.number;
  dp_completed : nat
}.

Definition dailyProgressData (days : list Date) (hs : list Habit)
    (c : HabitCompletion) : list DailyProgress :=
  map (fun day =>
         let '(dayCompleted, dayTotal) := tallyDay hs c day (0, 0) in
         mkDailyProgress (DateFns.format_d day)
                         (percentageOf dayCompleted dayTotal)
                         dayCompleted)
      days.

Record MonthlyOverall := mkMonthlyOverall {
  mo_completed : JS.number;
  mo_incomplete : JS.number
}.

Definition monthlyOverallStats (days : list Date) (hs : list Habit)
    (c : HabitCompletion) : MonthlyOverall :=
  let '(totalCompleted, totalPossible) :=
    fold_left (fun acc day => tallyDay hs c day acc) days (0, 0) in
  let percentage := percentageOf totalCompleted totalPossible in
  mkMonthlyOverall
    percentage
    (if totalPossible =? 0 then JS.of_Z 0 else JS.sub (JS.of_Z 100) percentage).

Record YearlyMonth := mkYearlyMonth {
  ym_name : string;
  ym_fullName : string;
  ym_percentage : JS.number;
  ym_totalPossible : nat;
  ym_totalCompleted : nat;
  ym_isFuture : bool
}.

Definition monthNames : list string :=
  [ "January"; "February"; "March"; "April"; "May"; "June"; "July";
    "August"; "September"; "October"; "November"; "December" ].

(** [a > b] on the midnights of two calendar dates. *)
Definition dateAfter (a b : Date) : bool :=
  (year b <? year a)
  || ((year a =? year b)
      && ((month b <? month a)
          || ((month a =? month b) && (day b <? day a)))).

(** [now] is the calendar date of [new Date()]; [monthDate] is
    [new Date(currentYear, i, 1)], for a year from 100 on. *)
Definition yearlyStats (now : Date) (current : Date) (hs : list Habit)
    (c : HabitCompletion) : list YearlyMonth :=
  map (fun i =>
         let monthDate := mkDate (year current) i 1 in
         let days := DateFns.eachDayOfMonth monthDate in
         let '(totalCompleted, totalPossible) :=
           fold_left (fun acc day => tallyDay hs c day acc) days (0, 0) in
         let fullName := default "" (monthNames !! i) in
         mkYearlyMonth (substring 0 3 fullName) fullName
                       (percentageOf totalCompleted totalPossible)
                       totalPossible totalCompleted
                       (dateAfter monthDate now))
      (seq 0 12).

(** ** The state endpoint: [onRequestGet] *)

Module StateEndpoint.
Section Handler.

(** What [JSON.parse] builds and [JSON.stringify] prints. *)
#[local] Set Warnings "-register-all".
Inductive JSON :=
| JNull
| JBool (b : bool)
| JNumber (x : JS.number)
| JString (s : string)
| JArray (items : list JSON)
| JObject (props : list (string * JSON)).

(** A step of the handler either returns or throws. *)
Inductive outcome (A : Type) :=
| Returns (a : A)
| Throws (err : string).
Arguments Returns {A} a.
Arguments Throws {A} err.

(** [try { body } catch { handler }] *)
Definition try_catch {A} (body : outcome A) (handler : outcome A) : outcome A :=
  match body with
  | Returns a => Returns a
  | Throws _ => handler
  end.

Definition bind {A B} (x : outcome A) (k : A -> outcome B) : outcome B :=
  match x with
  | Returns a => k a
  | Throws err => Throws err
  end.

(** The runtime's [JSON.parse]: a value, or a [SyntaxError]. *)
Variable JSON_parse : string -> outcome JSON.

Record Response := mkResponse { status : nat; body : JSON }.

(** [json(data, status = 200)] *)
Definition json (data : JSON) : Response := mkResponse 200 data.

(** The row that [SELECT state_json FROM app_state WHERE id = 1] gives
    through [first()]; [None] stands for [null], no row. *)
Record Row := mkRow { state_json : string }.

(** [{ habits: [], completions: {} }] *)
Definition defaultState : JSON :=
  JObject [("habits", JArray []); ("completions", JObject [])].

Definition onRequestGet (row : option Row) : outcome Response :=
  match row with
  | None => Returns (json defaultState)
  | Some r =>
      try_catch
        (bind (JSON_parse (state_json r)) (fun v => Returns (json v)))
        (Returns (json defaultState))
  end.

End Handler.
End StateEndpoint.

(** ** How a cell is read *)

(** The three states of a cell.  The table cell and the four statistics
    read a cell the same way: [=== true] is done, [=== 'skipped'] is
    skipped, anything else is unset. *)
Inductive Status := Unset | Done | Skipped.

#[global] Instance Status_eq_dec : EqDecision Status.
Proof. solve_decision. Defined.

Definition statusOf (s : HabitStatus) : Status :=
  match s with
  | StTrue => Done
  | StSkipped => Skipped
  | StFalse | StUndefined => Unset
  end.

Definition statusOfValue (v : PropertyValue) : Status :=
  match v with
  | Value s => statusOf s
  | Inherited => Unset
  end.

(** The state the table shows for a cell:
    [status = completions[dateKey]?.[habit.id]]. *)
Definition cellStatus (c : HabitCompletion) (dateKey habitId : string) : Status :=
  statusOfValue (getStatus c dateKey habitId).

(** The order [Unset -> Done -> Skipped -> Unset]. *)
Definition cycleOrder (s : Status) : Status :=
  match s with
  | Unset => Done
  | Done => Skipped
  | Skipped => Unset
  end.

(** An entry of the log whose stored value is [undefined]. *)
Definition storesUnset (c : HabitCompletion) : Prop :=
  ∃ dateKey dayCompletions habitId,
    c !! dateKey = Some dayCompletions
    ∧ dayCompletions !! habitId = Some StUndefined.

(** ** User actions and runs *)

Inductive Action :=
| TypeNewValue (v : string)
| AddHabit (newId : string)
| StartEditing (habit : Habit)
| TypeEditValue (v : string)
| SaveEdit
| DeleteHabit (habitId : string)
| CycleHabitState (date : Date) (habitId : string)
| Undo.

Definition step (a : Action) (st : AppState) : AppState :=
  match a with
  | TypeNewValue v => setNewValue v st
  | AddHabit newId => addHabit newId st
  | StartEditing habit => startEditing habit st
  | TypeEditValue v => setEditValue v st
  | SaveEdit => saveEdit st
  | DeleteHabit habitId => deleteHabit habitId st
  | CycleHabitState date habitId => cycleHabitState date habitId st
  | Undo => undo st
  end.

Definition run (actions : list Action) (st : AppState) : AppState :=
  fold_left (fun st a => step a st) actions st.

(** When a mutation of the store is accepted. *)
Definition accepted (a : Action) (st : AppState) : bool :=
  match a with
  | AddHabit _ => JS.truthy_string (JS.trim (newValue st))
  | SaveEdit => JS.truthy_string (JS.trim (editValue st))
  | DeleteHabit _ | CycleHabitState _ _ => true
  | _ => false
  end.

(** ** Notions the properties are stated with *)

(** The snapshot a mutation pushes. *)
Definition snapshotOf (st : AppState) : Snapshot :=
  mkSnapshot (JSON_clone_habits (habits st))
             (JSON_clone_completions (completions st)).

(** The habit list after an accepted [saveEdit]. *)
Definition renamed (target : option string) (newName : string) (h : Habit) : Habit :=
  if decide (Some (id h) = target) then mkHabit (id h) newName else h.

(** What the log itself stores for a cell: the value under the date key
    and the habit id, [undefined] when the log has no such entry.  This
    is the content of the log, not a read of the program: see
    [getStatus] for that. *)
Definition storedStatus (c : HabitCompletion) (dateKey habitId : string) : HabitStatus :=
  match c !! dateKey with
  | None => StUndefined
  | Some dayCompletions => default StUndefined (dayCompletions !! habitId)
  end.

(** Two logs that differ at most in the entries of habit [habitId]. *)
Definition agreeExcept (habitId : string) (c c' : HabitCompletion) : Prop :=
  ∀ dateKey h, h ≠ habitId → storedStatus c dateKey h = storedStatus c' dateKey h.

(** Whether a character occurs in a string. *)
Fixpoint occurs (a : ascii) (s : string) : bool :=
  match s with
  | EmptyString => false
  | String b s' => bool_decide (a = b) || occurs a s'
  end.

(** The number 0. *)
Definition zero : JS.number := S754_zero false.

(** The percentage as the specification words it: a day is eligible when
    its status is not Skipped; an eligible day that is Done counts in the
    numerator, every eligible day in the denominator; the result is
    [100 * numerator / denominator] rounded to the nearest integer, a
    half going up, and 0 when the denominator is 0. *)
Module Spec.

Definition eligible (c : HabitCompletion) (habitId : string) (day : Date) : bool :=
  bool_decide (cellStatus c (DateFns.format_yyyy_MM_dd day) habitId ≠ Skipped).

Definition completed (c : HabitCompletion) (habitId : string) (day : Date) : bool :=
  eligible c habitId day
  && bool_decide (cellStatus c (DateFns.format_yyyy_MM_dd day) habitId = Done).

Definition numerator (days : list Date) (c : HabitCompletion) (habitId : string) : nat :=
  length (List.filter (completed c habitId) days).

Definition denominator (days : list Date) (c : HabitCompletion) (habitId : string) : nat :=
  length (List.filter (eligible c habitId) days).

(** [num / den] rounded to the nearest integer, a half going up. *)
Definition roundHalfUp (num den : Z) : Z := ((2 * num + den) / (2 * den))%Z.

Definition habitPercentage (days : list Date) (c : HabitCompletion)
    (habitId : string) : Z :=
  let n := numerator days c habitId in
  let d := denominator days c habitId in
  if d =? 0 then 0%Z else roundHalfUp (100 * Z.of_nat n) (Z.of_nat d).

End Spec.

#[global] Instance spec_float_eq_dec : EqDecision spec_float.
Proof. solve_decision. Defined.

(** ** Binary64 values and rounding *)

(** What the lemmas on binary64 arithmetic are stated with: the rational a
    mantissa and an exponent stand for, the location of a rational with
    respect to an integer, and bounds on a result. *)
Module Binary64.

Local Open Scope Z_scope.

Abbreviation fexp := (SpecFloat.fexp JS.prec JS.emax).

Definition bpow (e : Z) : Q := (2 ^ e)%Q.

(** The rational a mantissa and an exponent stand for. *)
Definition F2Q (m e : Z) : Q := (inject_Z m * bpow e)%Q.

(** Where the rational [u] lies with respect to the integer [m]. *)
Definition inbetween (m : Z) (l : location) (u : Q) : Prop :=
  match l with
  | loc_Exact => (u == inject_Z m)%Q
  | loc_Inexact Lt => (inject_Z m < u ∧ u < inject_Z m + (1 # 2))%Q
  | loc_Inexact Eq => (u == inject_Z m + (1 # 2))%Q
  | loc_Inexact Gt => (inject_Z m + (1 # 2) < u ∧ u < inject_Z m + 1)%Q
  end.

(** A result that is +0 or a positive number at most [Mb * 2^Eb]. *)
Definition bounded_by (Mb : positive) (Eb : Z) (x : spec_float) : Prop :=
  match x with
  | S754_zero s => s = false
  | S754_finite s m e => s = false ∧ (F2Q (Zpos m) e <= F2Q (Zpos Mb) Eb)%Q
  | _ => False
  end.

(** The number 1 is [2^52 * 2^-52]; the number 100 is
    [(100 * 2^46) * 2^-46]. *)
Definition one_mantissa : positive := 4503599627370496.

Definition hundred_mantissa : positive := 7036874417766400.

(** A percentage: an integer from 0 to 100, as a number. *)
Definition isPercentage (x : spec_float) : Prop :=
  ∃ z : Z, 0 ≤ z ≤ 100 ∧ x = JS.of_Z z.

(** The check of [100 - z] against the integer [100 - z], for the 101
    integers [z] from 0 to 100. *)
Definition sub_table : bool :=
  forallb (fun z => bool_decide (JS.sub (JS.of_Z 100) (JS.of_Z (Z.of_nat z))
                                 = JS.of_Z (100 - Z.of_nat z)))
          (seq 0 101).

End Binary64.

(** The check of [percentageOf] against the half-up rounding of the exact
    quotient, for every [count <= total <= bound]. *)
Definition percentageOf_table (bound : nat) : bool :=
  forallb
    (fun total =>
       forallb
         (fun count =>
            bool_decide
              (percentageOf count total
               = JS.of_Z (if total =? 0 then 0
                          else Spec.roundHalfUp (100 * Z.of_nat count)
                                                (Z.of_nat total))))
         (seq 0 (S total)))
    (seq 0 (S bound)).

(** * Properties *)

(** ** Examples *)

Example format_example :
  DateFns.format_yyyy_MM_dd (mkDate 2024 0 1) = "2024-01-01".
Proof. reflexivity. Qed.

Example trim_example : JS.trim "  Read a book  " = "Read a book".
Proof. reflexivity. Qed.

Example of_Z_50 : JS.of_Z 50 = S754_finite false 7036874417766400 (-47).
Proof. reflexivity. Qed.

Example round_example :
  JS.Math_round (JS.mul (JS.div (JS.of_Z 1) (JS.of_Z 8)) (JS.of_Z 100)) = JS.of_Z 13.
Proof. reflexivity. Qed.

Example round_23_40 :
  JS.Math_round (JS.mul (JS.div (JS.of_Z 23) (JS.of_Z 40)) (JS.of_Z 100)) = JS.of_Z 57.
Proof. reflexivity. Qed.

(** ** The completion log under the cycle operation *)

(** The key of a date is never inherited from [Object.prototype]. *)
Lemma occurs_app (a : ascii) (s1 s2 : string) :
  occurs a (s1 +:+ s2) = occurs a s1 || occurs a s2.
Proof.
  induction s1 as [|b s1 IH]; simpl; [done|]. rewrite IH. by rewrite orb_assoc.
Qed.

Lemma format_yyyy_MM_dd_own (date : Date) :
  JS.inherited (DateFns.format_yyyy_MM_dd date) = false.
Proof.
  apply bool_decide_eq_false. intros Hin.
  assert (Hdash : occurs "-" (DateFns.format_yyyy_MM_dd date) = true).
  { unfold DateFns.format_yyyy_MM_dd. rewrite !occurs_app. simpl.
    by rewrite orb_true_r. }
  assert (Hnames : Forall (fun key => occurs "-" key = false)
                          JS.objectPrototypeNames)
    by (repeat constructor).
  rewrite Forall_forall in Hnames. apply Hnames in Hin. congruence.
Qed.

Section CycleLemmas.
Implicit Types (c : HabitCompletion) (dateKey habitId : string).

(** A read and the stored value show the same state. *)
Lemma cellStatus_storedStatus c dateKey habitId :
  cellStatus c dateKey habitId = statusOf (storedStatus c dateKey habitId).
Proof.
  unfold cellStatus, getStatus, storedStatus, readProperty.
  destruct (c !! dateKey) as [d|]; simpl; [|done].
  destruct (d !! habitId); simpl; [done|]. by destruct (JS.inherited habitId).
Qed.

(** A read gives the stored value, unless the habit id names a member
    of [Object.prototype] and the day stores nothing for it. *)
Lemma getStatus_own c dateKey habitId :
  getStatus c dateKey habitId ≠ Inherited →
  getStatus c dateKey habitId = Value (storedStatus c dateKey habitId).
Proof.
  unfold getStatus, storedStatus, readProperty.
  destruct (c !! dateKey) as [d|]; simpl; [|done].
  destruct (d !! habitId); simpl; [done|]. by destruct (JS.inherited habitId).
Qed.

Lemma getStatus_not_inherited c dateKey habitId :
  JS.inherited habitId = false → getStatus c dateKey habitId ≠ Inherited.
Proof.
  intros Hh. unfold getStatus, readProperty.
  destruct (c !! dateKey) as [d|]; [|done].
  destruct (d !! habitId); [done|]. by rewrite Hh.
Qed.

Lemma getStatus_set c dateKey habitId :
  cellStatus c dateKey habitId ≠ Unset → getStatus c dateKey habitId ≠ Inherited.
Proof. unfold cellStatus. intros Hs Hr. by rewrite Hr in Hs. Qed.

Lemma storedStatus_cycle_same c dateKey habitId :
  storedStatus (cycleCompletions dateKey habitId c) dateKey habitId
  = nextStatus (getStatus c dateKey habitId).
Proof.
  unfold cycleCompletions, storedStatus at 1.
  rewrite lookup_insert_eq. simpl. by rewrite lookup_insert_eq.
Qed.

Lemma getStatus_cycle_same c dateKey habitId :
  getStatus (cycleCompletions dateKey habitId c) dateKey habitId
  = Value (nextStatus (getStatus c dateKey habitId)).
Proof.
  unfold cycleCompletions, getStatus at 1, readProperty.
  rewrite lookup_insert_eq. by rewrite lookup_insert_eq.
Qed.

Lemma storedStatus_cycle_other c dateKey habitId dateKey' habitId' :
  (dateKey, habitId) ≠ (dateKey', habitId') →
  storedStatus (cycleCompletions dateKey habitId c) dateKey' habitId'
  = storedStatus c dateKey' habitId'.
Proof.
  intros Hne. unfold cycleCompletions, storedStatus at 1 2.
  destruct (decide (dateKey = dateKey')) as [->|Hd].
  - rewrite lookup_insert_eq. simpl.
    rewrite lookup_insert_ne by congruence.
    by destruct (c !! dateKey').
  - by rewrite lookup_insert_ne.
Qed.

Lemma statusOf_nextStatus (s : HabitStatus) :
  statusOf (nextStatus (Value s)) = cycleOrder (statusOf s).
Proof. by destruct s. Qed.

Lemma cellStatus_cycle c dateKey habitId :
  getStatus c dateKey habitId ≠ Inherited →
  cellStatus (cycleCompletions dateKey habitId c) dateKey habitId
  = cycleOrder (cellStatus c dateKey habitId).
Proof.
  intros Hown. rewrite !cellStatus_storedStatus, storedStatus_cycle_same.
  rewrite (getStatus_own _ _ _ Hown). apply statusOf_nextStatus.
Qed.

Lemma cycleOrder_period (s : Status) : cycleOrder (cycleOrder (cycleOrder s)) = s.
Proof. by destruct s. Qed.

(** Cycling a skipped cell keeps its key and stores [undefined] there. *)
Lemma cycle_from_skipped_stores c dateKey habitId :
  cellStatus c dateKey habitId = Skipped →
  ∃ dayCompletions,
    cycleCompletions dateKey habitId c !! dateKey = Some dayCompletions
    ∧ dayCompletions !! habitId = Some StUndefined.
Proof.
  unfold cellStatus. intros Hs.
  exists (<[habitId := StUndefined]> (default ∅ (c !! dateKey))).
  unfold cycleCompletions. rewrite !lookup_insert_eq.
  destruct (getStatus c dateKey habitId) as [[]|]; try discriminate. done.
Qed.

End CycleLemmas.

Lemma completions_cycleHabitState date habitId st :
  completions (cycleHabitState date habitId st)
  = cycleCompletions (DateFns.format_yyyy_MM_dd date) habitId (completions st).
Proof. reflexivity. Qed.

Lemma cellStatus_cycleHabitState date habitId st :
  getStatus (completions st) (DateFns.format_yyyy_MM_dd date) habitId ≠ Inherited →
  cellStatus (completions (cycleHabitState date habitId st))
             (DateFns.format_yyyy_MM_dd date) habitId
  = cycleOrder (cellStatus (completions st)
                           (DateFns.format_yyyy_MM_dd date) habitId).
Proof. rewrite completions_cycleHabitState. apply cellStatus_cycle. Qed.

(** After a cycle the cell is an own property of its day. *)
Lemma getStatus_cycleHabitState date habitId st :
  getStatus (completions (cycleHabitState date habitId st))
             (DateFns.format_yyyy_MM_dd date) habitId ≠ Inherited.
Proof. by rewrite completions_cycleHabitState, getStatus_cycle_same. Qed.

(** C2, as stated, fails: four applications from an unset cell do not
    give an unset cell.  On the empty log, the cell of habit "1" on
    2024-01-01 is unset; after four cycles it is done. *)
Lemma cycle_four_times_from_unset_is_done :
  let date := mkDate 2024 0 1 in
  let st := initialState date in
  cellStatus (completions st) "2024-01-01" "1" = Unset
  ∧ cellStatus
      (completions (Nat.iter 4 (cycleHabitState date "1") st))
      "2024-01-01" "1" ≠ Unset.
Proof. split; [reflexivity | vm_compute; discriminate]. Qed.

(** A habit id that names a member of [Object.prototype] leaves the
    cycle once: on a day that has an object but no entry for the id, the
    read gives the inherited member, which is truthy and is not [true],
    so the first click stores [undefined]. *)
Lemma cycle_inherited_habit_id :
  let date := mkDate 2024 0 1 in
  let st := cycleHabitState date "1" (initialState date) in
  JS.inherited "constructor" = true
  ∧ map (fun n =>
           cellStatus
             (completions (Nat.iter n (cycleHabitState date "constructor") st))
             "2024-01-01" "constructor")
        [0; 1; 2; 3; 4]
    = [Unset; Unset; Done; Skipped; Unset].
Proof. split; [reflexivity | vm_compute; reflexivity]. Qed.

(** C2 (amended): for a habit id that is not the name of a member of
    [Object.prototype], one application of the cycle operation advances
    the status of its cell along [Unset -> Done -> Skipped -> Unset];
    three applications return the cell to its status; four applications
    equal one, so from an unset cell they give a done cell. *)
Theorem cycleHabitState_three_cycle (date : Date) (habitId : string) (st : AppState) :
  JS.inherited habitId = false →
  let dateKey := DateFns.format_yyyy_MM_dd date in
  let status_after n :=
    cellStatus (completions (Nat.iter n (cycleHabitState date habitId) st))
               dateKey habitId in
  status_after 1 = cycleOrder (status_after 0)
  ∧ status_after 3 = status_after 0
  ∧ status_after 4 = status_after 1
  ∧ (status_after 0 = Unset → status_after 4 = Done).
Proof.
  intros Hid. cbv zeta. unfold Nat.iter, nat_rect.
  rewrite !cellStatus_cycleHabitState by by apply getStatus_not_inherited.
  by destruct (cellStatus (completions st) _ habitId).
Qed.

Lemma cycleHabitState_three_cycle_witness :
  let date := mkDate 2024 0 1 in
  let st := initialState date in
  JS.inherited "1" = false
  ∧ cellStatus (completions st) "2024-01-01" "1" = Unset
  ∧ cellStatus (completions (Nat.iter 4 (cycleHabitState date "1") st))
               "2024-01-01" "1" = Done.
Proof.
  split; [reflexivity|]. split; [reflexivity|].
  apply (cycleHabitState_three_cycle (mkDate 2024 0 1) "1"
           (initialState (mkDate 2024 0 1)) eq_refl).
  reflexivity.
Defined.

(** ** JSON copies and the undo history *)

Lemma JSON_clone_habits_id (hs : list Habit) : JSON_clone_habits hs = hs.
Proof.
  unfold JSON_clone_habits. induction hs as [|[i n] hs IH]; simpl; congruence.
Qed.

Lemma JSON_clone_day_lookup (d : gmap string HabitStatus) (habitId : string) :
  JSON_clone_day d !! habitId
  = match d !! habitId with
    | Some StUndefined | None => None
    | Some v => Some v
    end.
Proof.
  unfold JSON_clone_day. rewrite lookup_omap.
  by destruct (d !! habitId) as [[]|].
Qed.

Lemma JSON_clone_completions_lookup (c : HabitCompletion) (dateKey : string) :
  JSON_clone_completions c !! dateKey = JSON_clone_day <$> c !! dateKey.
Proof. unfold JSON_clone_completions. by rewrite lookup_fmap. Qed.

(** A JSON copy holds no [undefined]. *)
Lemma JSON_clone_not_storesUnset (c : HabitCompletion) :
  ¬ storesUnset (JSON_clone_completions c).
Proof.
  intros (dateKey & dc & habitId & Hd & Hh).
  rewrite JSON_clone_completions_lookup in Hd.
  destruct (c !! dateKey) as [d|]; simpl in Hd; [|discriminate].
  injection Hd as <-. rewrite JSON_clone_day_lookup in Hh.
  by destruct (d !! habitId) as [[]|].
Qed.

(** A JSON copy stores the statuses of the log it copies, an [undefined]
    as an absent entry. *)
Lemma storedStatus_JSON_clone (c : HabitCompletion) (dateKey habitId : string) :
  storedStatus (JSON_clone_completions c) dateKey habitId
  = storedStatus c dateKey habitId.
Proof.
  unfold storedStatus. rewrite JSON_clone_completions_lookup.
  destruct (c !! dateKey) as [d|]; simpl; [|done].
  rewrite JSON_clone_day_lookup. by destruct (d !! habitId) as [[]|].
Qed.

(** A log that stores no [undefined] is its own JSON copy. *)
Lemma JSON_clone_completions_id (c : HabitCompletion) :
  ¬ storesUnset c → JSON_clone_completions c = c.
Proof.
  intros Hc. apply map_eq. intros dateKey.
  rewrite JSON_clone_completions_lookup.
  destruct (c !! dateKey) as [d|] eqn:Hd; simpl; [|done].
  f_equal. apply map_eq. intros habitId. rewrite JSON_clone_day_lookup.
  destruct (d !! habitId) as [v|] eqn:Hv; [|done].
  destruct v; try done.
  exfalso. apply Hc. by exists dateKey, d, habitId.
Qed.

Lemma pushToHistory_unfold hs c prev :
  pushToHistory hs c prev
  = if 50 <? length (prev ++ [mkSnapshot (JSON_clone_habits hs) (JSON_clone_completions c)])
    then drop 1 prev ++ [mkSnapshot (JSON_clone_habits hs) (JSON_clone_completions c)]
    else prev ++ [mkSnapshot (JSON_clone_habits hs) (JSON_clone_completions c)].
Proof.
  unfold pushToHistory. cbv zeta.
  destruct (50 <? _) eqn:Hlen; [|done].
  apply Nat.ltb_lt in Hlen. rewrite length_app in Hlen. simpl in Hlen.
  destruct prev; simpl in *; [lia | done].
Qed.

Lemma pushToHistory_last hs c prev :
  last (pushToHistory hs c prev)
  = Some (mkSnapshot (JSON_clone_habits hs) (JSON_clone_completions c)).
Proof.
  rewrite pushToHistory_unfold. destruct (50 <? _); apply last_snoc.
Qed.

Lemma pushToHistory_length hs c prev :
  length (pushToHistory hs c prev) = Nat.min 50 (S (length prev))
  ∨ 50 < length prev.
Proof.
  rewrite pushToHistory_unfold.
  destruct (50 <? _) eqn:Hlen;
    [apply Nat.ltb_lt in Hlen | apply Nat.ltb_ge in Hlen];
    rewrite !length_app, ?length_drop in *; cbn [length] in *; lia.
Qed.

Lemma pushToHistory_bounded hs c prev :
  length prev ≤ 50 → length (pushToHistory hs c prev) ≤ 50.
Proof. destruct (pushToHistory_length hs c prev); lia. Qed.

Lemma pushToHistory_init hs c prev :
  take (length (pushToHistory hs c prev) - 1) (pushToHistory hs c prev)
  = if 50 <? S (length prev) then drop 1 prev else prev.
Proof.
  rewrite pushToHistory_unfold. rewrite length_app. simpl.
  replace (length prev + 1) with (S (length prev)) by lia.
  destruct (50 <? _);
    rewrite length_app; simpl;
    match goal with |- take ?n (?l ++ _) = _ =>
      replace n with (length l) by lia end;
    by rewrite take_app_length.
Qed.

(** Three cycles from an unset cell leave [undefined] stored in the log. *)
Lemma storesUnset_after_three_cycles (date : Date) (habitId : string) (st : AppState) :
  getStatus (completions st) (DateFns.format_yyyy_MM_dd date) habitId ≠ Inherited →
  cellStatus (completions st) (DateFns.format_yyyy_MM_dd date) habitId = Unset →
  storesUnset (completions (Nat.iter 3 (cycleHabitState date habitId) st)).
Proof.
  intros Hown Hs. unfold Nat.iter, nat_rect. rewrite completions_cycleHabitState.
  destruct (cycle_from_skipped_stores
              (completions (cycleHabitState date habitId
                              (cycleHabitState date habitId st)))
              (DateFns.format_yyyy_MM_dd date) habitId) as (d & Hd & Hh).
  - rewrite !cellStatus_cycleHabitState, Hs;
      [done | done | apply getStatus_cycleHabitState].
  - by exists (DateFns.format_yyyy_MM_dd date), d, habitId.
Qed.

(** C3, as stated, fails: cycling the cell of habit "1" on 2024-01-01
    three times from the empty log leaves the date key and the habit id
    in the log, with [undefined] stored under them. *)
Lemma cycle_to_unset_keeps_entry :
  let date := mkDate 2024 0 1 in
  storesUnset
    (completions (Nat.iter 3 (cycleHabitState date "1") (initialState date))).
Proof. cbv zeta. by apply storesUnset_after_three_cycles. Qed.

(** C3 (amended): cycling a skipped cell writes Unset by storing
    [undefined] under the date key and habit id, which stay in the log;
    the cell then reads as unset, as an absent key does.  What never holds
    an entry whose stored value is Unset is the JSON copy of the log: the
    copy of the log after the operation, and the snapshot the operation
    pushed on the history. *)
Theorem cycleHabitState_unset_representation
    (date : Date) (habitId : string) (st : AppState) :
  let dateKey := DateFns.format_yyyy_MM_dd date in
  let st' := cycleHabitState date habitId st in
  (cellStatus (completions st) dateKey habitId = Skipped →
     (∃ dayCompletions,
        completions st' !! dateKey = Some dayCompletions
        ∧ dayCompletions !! habitId = Some StUndefined)
     ∧ cellStatus (completions st') dateKey habitId = Unset)
  ∧ (∀ k h, completions st !! k = None → cellStatus (completions st) k h = Unset)
  ∧ ¬ storesUnset (JSON_clone_completions (completions st'))
  ∧ (∃ snap, last (history st') = Some snap
             ∧ ¬ storesUnset (snap_completions snap)).
Proof.
  cbv zeta. split; [|split; [|split]].
  - intros Hskipped. split.
    + rewrite completions_cycleHabitState.
      by apply cycle_from_skipped_stores.
    + rewrite cellStatus_cycleHabitState, Hskipped; [done|].
      apply getStatus_set. by rewrite Hskipped.
  - intros k h Hk. unfold cellStatus, getStatus. by rewrite Hk.
  - apply JSON_clone_not_storesUnset.
  - eexists. split; [apply pushToHistory_last|].
    apply JSON_clone_not_storesUnset.
Qed.

Lemma cycleHabitState_unset_representation_witness :
  let date := mkDate 2024 0 1 in
  let st := Nat.iter 2 (cycleHabitState date "1") (initialState date) in
  cellStatus (completions st) "2024-01-01" "1" = Skipped
  ∧ cellStatus (completions (cycleHabitState date "1" st)) "2024-01-01" "1" = Unset.
Proof.
  cbv zeta.
  assert (Hs : cellStatus
                 (completions (Nat.iter 2 (cycleHabitState (mkDate 2024 0 1) "1")
                                 (initialState (mkDate 2024 0 1))))
                 "2024-01-01" "1" = Skipped) by (vm_compute; reflexivity).
  split; [exact Hs|].
  exact (proj2 (proj1 (cycleHabitState_unset_representation (mkDate 2024 0 1) "1"
           (Nat.iter 2 (cycleHabitState (mkDate 2024 0 1) "1")
              (initialState (mkDate 2024 0 1)))) Hs)).
Defined.

(** ** Undo after a mutation *)

Lemma history_step_accepted (a : Action) (st : AppState) :
  accepted a st = true →
  history (step a st) = pushToHistory (habits st) (completions st) (history st).
Proof.
  destruct a; simpl; try discriminate; intros Ha;
    unfold addHabit, saveEdit; rewrite ?Ha; reflexivity.
Qed.

Lemma undo_after_snapshot (st : AppState) (snap : Snapshot) :
  last (history st) = Some snap →
  habits (undo st) = snap_habits snap
  ∧ completions (undo st) = snap_completions snap
  ∧ history (undo st) = take (length (history st) - 1) (history st).
Proof. intros Hl. unfold undo. by rewrite Hl. Qed.

Lemma undo_step_accepted (a : Action) (st : AppState) :
  accepted a st = true →
  habits (undo (step a st)) = habits st
  ∧ completions (undo (step a st)) = JSON_clone_completions (completions st)
  ∧ history (undo (step a st))
    = if 50 <? S (length (history st)) then drop 1 (history st) else history st.
Proof.
  intros Ha.
  destruct (undo_after_snapshot (step a st) (snapshotOf st)) as (Hh & Hc & Hhist).
  - rewrite history_step_accepted by done. apply pushToHistory_last.
  - rewrite Hh, Hc, Hhist. unfold snapshotOf. simpl.
    rewrite JSON_clone_habits_id, history_step_accepted by done.
    by rewrite pushToHistory_init.
Qed.

(** C4, as stated, fails: after three cycles of one cell the log stores
    [undefined] for it; deleting a habit and undoing then gives back the
    log without that entry, not the log as it was. *)
Lemma undo_drops_undefined_entries :
  let date := mkDate 2024 0 1 in
  let st := Nat.iter 3 (cycleHabitState date "1") (initialState date) in
  accepted (DeleteHabit "2") st = true
  ∧ completions (undo (step (DeleteHabit "2") st)) ≠ completions st.
Proof.
  cbv zeta. split; [reflexivity|]. intros Heq.
  destruct (undo_step_accepted (DeleteHabit "2")
              (Nat.iter 3 (cycleHabitState (mkDate 2024 0 1) "1")
                 (initialState (mkDate 2024 0 1)))) as (_ & Hc & _);
    [reflexivity|].
  rewrite Hc in Heq.
  eapply JSON_clone_not_storesUnset. rewrite Heq.
  by apply storesUnset_after_three_cycles.
Qed.

(** C4 (amended): every accepted mutation (addHabit, saveEdit, deleteHabit,
    cycleHabitState) first pushes a JSON copy of the habits and the log it
    was rendered with; undo right after it restores the habits exactly and
    the log as its JSON copy, in which every cell reads as before and which
    is the log itself when the log stored no [undefined]; the history
    shrinks by one, back to the history before the mutation when that held
    fewer than 50 snapshots. *)
Theorem undo_after_mutation (a : Action) (st : AppState) :
  accepted a st = true →
  last (history (step a st)) = Some (snapshotOf st)
  ∧ habits (undo (step a st)) = habits st
  ∧ completions (undo (step a st)) = JSON_clone_completions (completions st)
  ∧ (∀ dateKey habitId,
       storedStatus (completions (undo (step a st))) dateKey habitId
       = storedStatus (completions st) dateKey habitId)
  ∧ (∀ (date : Date) habitId,
       cellStatus (completions (undo (step a st)))
                  (DateFns.format_yyyy_MM_dd date) habitId
       = cellStatus (completions st) (DateFns.format_yyyy_MM_dd date) habitId)
  ∧ (¬ storesUnset (completions st) →
       completions (undo (step a st)) = completions st)
  ∧ S (length (history (undo (step a st)))) = length (history (step a st))
  ∧ (length (history st) < 50 → history (undo (step a st)) = history st).
Proof.
  intros Ha. destruct (undo_step_accepted a st Ha) as (Hh & Hc & Hhist).
  split; [rewrite history_step_accepted by done; apply pushToHistory_last|].
  split; [done|]. split; [done|]. rewrite Hc.
  split; [intros; apply storedStatus_JSON_clone|].
  split; [intros; by rewrite !cellStatus_storedStatus, storedStatus_JSON_clone|].
  split; [apply JSON_clone_completions_id|].
  rewrite Hhist, history_step_accepted by done. rewrite pushToHistory_unfold.
  rewrite length_app. cbn [length].
  replace (length (history st) + 1) with (S (length (history st))) by lia.
  destruct (50 <? S (length (history st))) eqn:Hlen;
    [apply Nat.ltb_lt in Hlen | apply Nat.ltb_ge in Hlen];
    rewrite ?length_app, ?length_drop; cbn [length]; split; (lia || done).
Qed.

Lemma undo_after_mutation_witness :
  let st := setNewValue " Read " (initialState (mkDate 2024 0 1)) in
  accepted (AddHabit "16") st = true
  ∧ habits (undo (step (AddHabit "16") st)) = INITIAL_HABITS.
Proof.
  cbv zeta. split; [reflexivity|].
  exact (proj1 (proj2 (undo_after_mutation (AddHabit "16")
           (setNewValue " Read " (initialState (mkDate 2024 0 1)))
           eq_refl))).
Defined.

(** ** The capacity of the undo history *)

Lemma history_step_bounded (a : Action) (st : AppState) :
  length (history st) ≤ 50 → length (history (step a st)) ≤ 50.
Proof.
  intros Hb.
  assert (Hpush : length (pushToHistory (habits st) (completions st) (history st)) ≤ 50)
    by by apply pushToHistory_bounded.
  destruct a; simpl; try done.
  - unfold addHabit. by destruct (negb _).
  - unfold saveEdit. by destruct (negb _).
  - unfold undo. destruct (last (history st)); simpl; [|done].
    rewrite length_take. lia.
Qed.

Lemma history_run_bounded (actions : list Action) (st : AppState) :
  length (history st) ≤ 50 → length (history (run actions st)) ≤ 50.
Proof.
  revert st. induction actions as [|a actions IH]; intros st Hb; [done|].
  simpl. apply IH. by apply history_step_bounded.
Qed.

(** C5: the undo history never holds more than 50 snapshots, whatever the
    user does from the start; a push on a history of 50 keeps the length at
    50, drops the oldest snapshot (index 0) and keeps the other 49 in order
    before the new one. *)
Theorem pushToHistory_capacity :
  (∀ (actions : list Action) (today : Date),
     length (history (run actions (initialState today))) ≤ 50)
  ∧ (∀ (hs : list Habit) (c : HabitCompletion) (prev : list Snapshot),
       length prev = 50 →
       pushToHistory hs c prev
       = drop 1 prev ++ [mkSnapshot (JSON_clone_habits hs) (JSON_clone_completions c)]
       ∧ length (pushToHistory hs c prev) = 50
       ∧ (∀ i, i < 49 → pushToHistory hs c prev !! i = prev !! S i)
       ∧ pushToHistory hs c prev !! 49
         = Some (mkSnapshot (JSON_clone_habits hs) (JSON_clone_completions c))).
Proof.
  split.
  - intros actions today. apply history_run_bounded. simpl. lia.
  - intros hs c prev Hlen. rewrite pushToHistory_unfold.
    rewrite length_app, Hlen. cbn [length Nat.add Nat.ltb Nat.leb].
    assert (Hd : length (drop 1 prev) = 49) by (rewrite length_drop; lia).
    split; [done|]. split; [rewrite length_app, Hd; reflexivity|]. split.
    + intros i Hi. rewrite lookup_app_l by lia. by rewrite lookup_drop.
    + rewrite lookup_app_r by lia. by rewrite Hd.
Qed.

Lemma pushToHistory_capacity_witness :
  let old := mkSnapshot INITIAL_HABITS ∅ in
  let new := mkSnapshot [] ∅ in
  length (pushToHistory [] ∅ (old :: replicate 49 new)) = 50
  ∧ pushToHistory [] ∅ (old :: replicate 49 new) !! 0 = Some new.
Proof.
  cbv zeta.
  destruct (proj2 pushToHistory_capacity [] ∅
              (mkSnapshot INITIAL_HABITS ∅ :: replicate 49 (mkSnapshot [] ∅))
              eq_refl) as (_ & Hlen & Hshift & _).
  split; [exact Hlen|].
  rewrite (Hshift 0) by lia. reflexivity.
Defined.

(** ** Renaming a habit *)

Lemma saveEdit_rejected (st : AppState) :
  JS.trim (editValue st) = "" → saveEdit st = st.
Proof. intros He. unfold saveEdit. by rewrite He. Qed.

Lemma saveEdit_accepted (st : AppState) :
  JS.trim (editValue st) ≠ "" →
  habits (saveEdit st)
  = map (renamed (editingHabitId st) (JS.trim (editValue st))) (habits st)
  ∧ completions (saveEdit st) = completions st
  ∧ history (saveEdit st)
    = pushToHistory (habits st) (completions st) (history st)
  ∧ editingHabitId (saveEdit st) = None.
Proof.
  intros He. unfold saveEdit.
  destruct (JS.trim (editValue st)) eqn:Ht; [done|]. by simpl.
Qed.

Lemma map_renamed_unmatched (target : option string) (newName : string)
    (hs : list Habit) :
  (∀ h, h ∈ hs → Some (id h) ≠ target) →
  map (renamed target newName) hs = hs.
Proof.
  induction hs as [|h hs IH]; intros Hne; [done|]. simpl.
  rewrite IH by (intros; apply Hne; by right).
  unfold renamed. rewrite decide_False; [done|]. apply Hne. by left.
Qed.

(** C6, as stated, fails: with a name that is not blank and an id that
    matches no habit, [saveEdit] still pushes a snapshot on the history. *)
Lemma saveEdit_unknown_id_pushes_snapshot :
  let st := setEditValue "Read" (setEditingHabitId (Some "99")
              (initialState (mkDate 2024 0 1))) in
  (∀ h, h ∈ habits st → id h ≠ "99")
  ∧ JS.trim (editValue st) ≠ ""
  ∧ history (saveEdit st) ≠ history st.
Proof.
  cbv zeta. split; [|split].
  - intros h Hh. simpl in Hh.
    repeat (apply elem_of_cons in Hh as [->|Hh]; [discriminate|]).
    by apply elem_of_nil in Hh.
  - discriminate.
  - discriminate.
Qed.

(** C6 (amended): [saveEdit] changes nothing at all when the trimmed name
    is empty.  Otherwise it pushes a snapshot and leaves the log as it is;
    it gives the trimmed name to the habits whose id is the one being
    edited and leaves every other habit, and the order, as they are; so
    when that id matches no habit, habits and log are unchanged but the
    history has one more snapshot pushed. *)
Theorem saveEdit_behaviour (st : AppState) :
  (JS.trim (editValue st) = "" → saveEdit st = st)
  ∧ (JS.trim (editValue st) ≠ "" →
       completions (saveEdit st) = completions st
       ∧ history (saveEdit st)
         = pushToHistory (habits st) (completions st) (history st)
       ∧ length (habits (saveEdit st)) = length (habits st)
       ∧ (∀ i h, habits st !! i = Some h →
            habits (saveEdit st) !! i
            = Some (if decide (Some (id h) = editingHabitId st)
                    then mkHabit (id h) (JS.trim (editValue st))
                    else h))
       ∧ ((∀ h, h ∈ habits st → Some (id h) ≠ editingHabitId st) →
            habits (saveEdit st) = habits st)).
Proof.
  split; [apply saveEdit_rejected|]. intros He.
  destruct (saveEdit_accepted st He) as (Hh & Hc & Hhist & _).
  rewrite Hh. repeat split; try done.
  - by rewrite length_map.
  - intros i h Hi. rewrite list_lookup_fmap, Hi. reflexivity.
  - apply map_renamed_unmatched.
Qed.

Lemma saveEdit_behaviour_witness :
  let read := mkHabit "1" "Get up at 5:00 AM" in
  let st := setEditValue "  Get up at 6  " (startEditing read
              (initialState (mkDate 2024 0 1))) in
  JS.trim (editValue st) ≠ ""
  ∧ habits st !! 0 = Some read
  ∧ habits (saveEdit st) !! 0 = Some (mkHabit "1" "Get up at 6").
Proof.
  cbv zeta.
  assert (He : JS.trim (editValue (setEditValue "  Get up at 6  "
                 (startEditing (mkHabit "1" "Get up at 5:00 AM")
                    (initialState (mkDate 2024 0 1))))) ≠ "") by discriminate.
  split; [exact He|]. split; [reflexivity|].
  destruct (proj2 (saveEdit_behaviour _) He) as (_ & _ & _ & Hi & _).
  rewrite (Hi 0 (mkHabit "1" "Get up at 5:00 AM") eq_refl). reflexivity.
Defined.

(** ** Deleting a habit *)

(** The tally tells apart [true], ['skipped'] and anything else: it
    depends on a read only through the state the read shows. *)
Lemma tally_statusOfValue (v v' : PropertyValue) (acc : nat * nat) :
  statusOfValue v = statusOfValue v' → tally v acc = tally v' acc.
Proof.
  destruct acc as [count total].
  by destruct v as [[]|], v' as [[]|].
Qed.

Lemma dayStatus_storedStatus (c : HabitCompletion) (dateKey habitId : string) :
  statusOfValue (dayStatus (dayCompletionsOf c dateKey) habitId)
  = statusOf (storedStatus c dateKey habitId).
Proof.
  unfold dayStatus, dayCompletionsOf, storedStatus, readProperty.
  destruct (c !! dateKey) as [d|]; simpl.
  - destruct (d !! habitId); simpl; [done|]. by destruct (JS.inherited habitId).
  - rewrite lookup_empty. by destruct (JS.inherited habitId).
Qed.

Lemma dayStatus_getStatus (c : HabitCompletion) (dateKey habitId : string) :
  statusOfValue (dayStatus (dayCompletionsOf c dateKey) habitId)
  = statusOfValue (getStatus c dateKey habitId).
Proof.
  rewrite dayStatus_storedStatus. symmetry. apply cellStatus_storedStatus.
Qed.

Lemma fold_left_ext_in {A B} (f g : A → B → A) (l : list B) (a : A) :
  (∀ a x, x ∈ l → f a x = g a x) → fold_left f l a = fold_left g l a.
Proof.
  revert a. induction l as [|x l IH]; intros a Hfg; [done|]. simpl.
  rewrite Hfg by by left. apply IH. intros; apply Hfg. by right.
Qed.

Section Orphans.
Variables (habitId : string) (hs : list Habit) (c c' : HabitCompletion).
Hypothesis Hagree : agreeExcept habitId c c'.
Hypothesis Hgone : ∀ h, h ∈ hs → id h ≠ habitId.

Lemma tallyDay_agree (day : Date) (acc : nat * nat) :
  tallyDay hs c day acc = tallyDay hs c' day acc.
Proof using Hagree Hgone.
  unfold tallyDay. apply fold_left_ext_in. intros a h Hh.
  apply tally_statusOfValue. rewrite !dayStatus_storedStatus.
  rewrite (Hagree _ (id h)); [done|]. by apply Hgone.
Qed.

Lemma tallyDays_agree (days : list Date) (acc : nat * nat) :
  fold_left (fun acc day => tallyDay hs c day acc) days acc
  = fold_left (fun acc day => tallyDay hs c' day acc) days acc.
Proof using Hagree Hgone.
  apply fold_left_ext_in. intros. apply tallyDay_agree.
Qed.

Lemma dailyProgressData_agree (days : list Date) :
  dailyProgressData days hs c = dailyProgressData days hs c'.
Proof using Hagree Hgone.
  unfold dailyProgressData. apply map_ext. intros day.
  by rewrite tallyDay_agree.
Qed.

Lemma monthlyOverallStats_agree (days : list Date) :
  monthlyOverallStats days hs c = monthlyOverallStats days hs c'.
Proof using Hagree Hgone.
  unfold monthlyOverallStats. by rewrite tallyDays_agree.
Qed.

Lemma yearlyStats_agree (now current : Date) :
  yearlyStats now current hs c = yearlyStats now current hs c'.
Proof using Hagree Hgone.
  unfold yearlyStats. apply map_ext. intros i.
  by rewrite tallyDays_agree.
Qed.

End Orphans.

(** C7: [deleteHabit] removes from the habit list exactly the habits with
    the given id, keeping the others in order, and leaves the completion
    log as it is; after it, the daily, monthly and yearly rollups do not
    depend on what the log holds for that id: they are the same on any
    log that differs only in entries of the deleted habit. *)
Theorem deleteHabit_frame (habitId : string) (st : AppState) :
  let st' := deleteHabit habitId st in
  completions st' = completions st
  ∧ habits st' = filter (fun h => id h ≠ habitId) (habits st)
  ∧ (∀ h, h ∈ habits st' ↔ h ∈ habits st ∧ id h ≠ habitId)
  ∧ (∀ (c' : HabitCompletion) (days : list Date) (now : Date),
       agreeExcept habitId (completions st') c' →
       dailyProgressData days (habits st') (completions st')
       = dailyProgressData days (habits st') c'
       ∧ monthlyOverallStats days (habits st') (completions st')
         = monthlyOverallStats days (habits st') c'
       ∧ yearlyStats now (currentDate st') (habits st') (completions st')
         = yearlyStats now (currentDate st') (habits st') c').
Proof.
  cbv zeta. split; [done|]. split; [done|].
  assert (Hmem : ∀ h, h ∈ habits (deleteHabit habitId st)
                      ↔ h ∈ habits st ∧ id h ≠ habitId).
  { intros h. simpl. rewrite list_elem_of_filter. tauto. }
  split; [exact Hmem|]. intros c' days now Hagree.
  assert (Hgone : ∀ h, h ∈ habits (deleteHabit habitId st) → id h ≠ habitId)
    by (intros h Hh; by apply Hmem in Hh as [_ ?]).
  split; [|split].
  - by apply (dailyProgressData_agree habitId).
  - by apply (monthlyOverallStats_agree habitId).
  - by apply (yearlyStats_agree habitId).
Qed.

Lemma deleteHabit_frame_witness :
  let date := mkDate 2024 0 1 in
  let st := cycleHabitState date "1" (initialState date) in
  let st' := deleteHabit "1" st in
  completions st' !! "2024-01-01" = Some {[ "1" := StTrue ]}
  ∧ agreeExcept "1" (completions st') ∅
  ∧ monthlyOverallStats (daysInMonth st') (habits st') (completions st')
    = monthlyOverallStats (daysInMonth st') (habits st') ∅.
Proof.
  cbv zeta.
  assert (Hag : agreeExcept "1"
            (completions (deleteHabit "1"
               (cycleHabitState (mkDate 2024 0 1) "1"
                  (initialState (mkDate 2024 0 1))))) ∅).
  { intros dateKey h Hh. simpl.
    change (cycleCompletions "2024-01-01" "1" ∅)
      with (cycleCompletions "2024-01-01" "1" (∅ : HabitCompletion)).
    rewrite storedStatus_cycle_other by congruence. done. }
  split; [reflexivity|]. split; [exact Hag|].
  destruct (deleteHabit_frame "1"
              (cycleHabitState (mkDate 2024 0 1) "1"
                 (initialState (mkDate 2024 0 1)))) as (_ & _ & _ & Hroll).
  exact (proj1 (proj2 (Hroll ∅ _ (mkDate 2024 0 1) Hag))).
Defined.

(** ** The zero denominator *)

Lemma percentageOf_zero_total (count : nat) : percentageOf count 0 = zero.
Proof. reflexivity. Qed.

Lemma getHabitStats_percentage days c habitId :
  hs_percentage (getHabitStats days c habitId)
  = percentageOf (hs_count (getHabitStats days c habitId))
                 (hs_total (getHabitStats days c habitId)).
Proof. unfold getHabitStats. by destruct (fold_left _ _ _). Qed.

Lemma tally_skipped (acc : nat * nat) : tally (Value StSkipped) acc = acc.
Proof. by destruct acc. Qed.

Lemma statusOf_skipped (v : PropertyValue) :
  statusOfValue v = Skipped → v = Value StSkipped.
Proof. by destruct v as [[]|]. Qed.

Lemma tallyDay_no_habit c day acc : tallyDay [] c day acc = acc.
Proof. reflexivity. Qed.

Lemma tallyDays_no_habit c (days : list Date) acc :
  fold_left (fun acc day => tallyDay [] c day acc) days acc = acc.
Proof. induction days; simpl; auto. Qed.

Lemma lookup_dailyProgressData days hs c (i : nat) :
  dailyProgressData days hs c !! i
  = (fun day =>
       mkDailyProgress (DateFns.format_d day)
         (percentageOf (tallyDay hs c day (0, 0)).1 (tallyDay hs c day (0, 0)).2)
         (tallyDay hs c day (0, 0)).1) <$> days !! i.
Proof.
  unfold dailyProgressData. rewrite list_lookup_fmap.
  destruct (days !! i) as [day|]; simpl; [|done].
  by destruct (tallyDay hs c day (0, 0)).
Qed.

Lemma monthlyOverallStats_unfold days hs c :
  monthlyOverallStats days hs c
  = let t := fold_left (fun acc day => tallyDay hs c day acc) days (0, 0) in
    mkMonthlyOverall
      (percentageOf t.1 t.2)
      (if t.2 =? 0 then JS.of_Z 0
       else JS.sub (JS.of_Z 100) (percentageOf t.1 t.2)).
Proof. unfold monthlyOverallStats. by destruct (fold_left _ _ _). Qed.

Lemma lookup_yearlyStats now current hs c (i : nat) (e : YearlyMonth) :
  yearlyStats now current hs c !! i = Some e →
  i < 12
  ∧ (ym_totalCompleted e, ym_totalPossible e)
    = fold_left (fun acc day => tallyDay hs c day acc)
        (DateFns.eachDayOfMonth (mkDate (year current) i 1)) (0, 0)
  ∧ ym_percentage e = percentageOf (ym_totalCompleted e) (ym_totalPossible e).
Proof.
  unfold yearlyStats. rewrite list_lookup_fmap.
  destruct (seq 0 12 !! i) as [j|] eqn:Hj; simpl; [|done].
  apply lookup_seq in Hj as [-> Hi]. simpl in *.
  destruct (fold_left _ _ _) as [tc tp]. intros [= <-]. by simpl.
Qed.

(** C8: the statistics never divide by zero.  When nothing is eligible
    the percentage is the number 0 (not NaN): for a habit, for a day, for
    the month (both shares) and for each month of the year; this is so
    for an empty habit list, for an empty list of days, and for a habit
    skipped on every day. *)
Theorem percentage_zero_denominator :
  zero = JS.of_Z 0 ∧ zero ≠ S754_nan
  ∧ (∀ days c habitId,
       hs_total (getHabitStats days c habitId) = 0 →
       hs_percentage (getHabitStats days c habitId) = zero)
  ∧ (∀ days c habitId,
       (∀ day, day ∈ days →
          cellStatus c (DateFns.format_yyyy_MM_dd day) habitId = Skipped) →
       hs_percentage (getHabitStats days c habitId) = zero)
  ∧ (∀ days hs c i day,
       days !! i = Some day → (tallyDay hs c day (0, 0)).2 = 0 →
       dp_percentage <$> dailyProgressData days hs c !! i = Some zero)
  ∧ (∀ days c i e,
       dailyProgressData days [] c !! i = Some e → dp_percentage e = zero)
  ∧ (∀ days hs c,
       (fold_left (fun acc day => tallyDay hs c day acc) days (0, 0)).2 = 0 →
       monthlyOverallStats days hs c = mkMonthlyOverall zero zero)
  ∧ (∀ days c, monthlyOverallStats days [] c = mkMonthlyOverall zero zero)
  ∧ (∀ hs c, monthlyOverallStats [] hs c = mkMonthlyOverall zero zero)
  ∧ (∀ now current hs c i e,
       yearlyStats now current hs c !! i = Some e →
       ym_totalPossible e = 0 → ym_percentage e = zero)
  ∧ (∀ now current c i e,
       yearlyStats now current [] c !! i = Some e → ym_percentage e = zero).
Proof.
  split; [reflexivity|]. split; [discriminate|].
  assert (Hhabit : ∀ days c habitId,
            hs_total (getHabitStats days c habitId) = 0 →
            hs_percentage (getHabitStats days c habitId) = zero).
  { intros days c habitId Ht. by rewrite getHabitStats_percentage, Ht. }
  assert (Hmonth : ∀ days hs c,
            (fold_left (fun acc day => tallyDay hs c day acc) days (0, 0)).2 = 0 →
            monthlyOverallStats days hs c = mkMonthlyOverall zero zero).
  { intros days hs c Ht. rewrite monthlyOverallStats_unfold. cbv zeta.
    by rewrite Ht. }
  assert (Hyear : ∀ now current hs c i e,
            yearlyStats now current hs c !! i = Some e →
            ym_totalPossible e = 0 → ym_percentage e = zero).
  { intros now current hs c i e He Ht.
    apply lookup_yearlyStats in He as (_ & _ & ->). by rewrite Ht. }
  split; [exact Hhabit|]. split.
  { intros days c habitId Hskip. apply Hhabit. unfold getHabitStats.
    assert (Hfold : ∀ acc,
              fold_left
                (fun acc day =>
                   tally (getStatus c (DateFns.format_yyyy_MM_dd day) habitId) acc)
                days acc = acc).
    { induction days as [|day days IH]; intros acc; [done|]. simpl.
      rewrite (statusOf_skipped _ (Hskip day ltac:(by left))), tally_skipped.
      apply IH. intros; apply Hskip. by right. }
    by rewrite Hfold. }
  split.
  { intros days hs c i day Hi Ht. rewrite lookup_dailyProgressData, Hi. simpl.
    by rewrite Ht. }
  split.
  { intros days c i e He. rewrite lookup_dailyProgressData in He.
    destruct (days !! i); simpl in He; [|done]. by injection He as <-. }
  split; [exact Hmonth|]. split.
  { intros days c. apply Hmonth. by rewrite tallyDays_no_habit. }
  split; [intros; by apply Hmonth|]. split; [exact Hyear|].
  intros now current c i e He. eapply Hyear; [exact He|].
  apply lookup_yearlyStats in He as (_ & Hfold & _).
  rewrite tallyDays_no_habit in Hfold. by injection Hfold.
Qed.

Lemma percentage_zero_denominator_witness :
  let day := mkDate 2024 0 1 in
  let c : HabitCompletion := {[ "2024-01-01" := {[ "1" := StSkipped ]} ]} in
  hs_total (getHabitStats [day] c "1") = 0
  ∧ hs_percentage (getHabitStats [day] c "1") = S754_zero false.
Proof.
  cbv zeta. split; [reflexivity|].
  apply (proj1 (proj2 (proj2 percentage_zero_denominator))). reflexivity.
Defined.

(** ** The state endpoint *)

(** C9: [onRequestGet] never throws and always answers 200.  It answers
    the default state [{habits: [], completions: {}}] when there is no
    stored row and when the stored text does not parse as JSON, and the
    parsed stored state in the remaining case. *)
Theorem onRequestGet_default
    (JSON_parse : string → StateEndpoint.outcome StateEndpoint.JSON)
    (row : option StateEndpoint.Row) :
  ∃ resp,
    StateEndpoint.onRequestGet JSON_parse row = StateEndpoint.Returns _ resp
    ∧ StateEndpoint.status resp = 200
    ∧ StateEndpoint.body resp
      = match row with
        | None => StateEndpoint.defaultState
        | Some r =>
            match JSON_parse (StateEndpoint.state_json r) with
            | StateEndpoint.Throws _ _ => StateEndpoint.defaultState
            | StateEndpoint.Returns _ v => v
            end
        end.
Proof.
  destruct row as [r|]; simpl.
  - destruct (JSON_parse (StateEndpoint.state_json r)) as [v|err]; simpl;
      eexists; repeat split.
  - eexists; repeat split.
Qed.

(** ** Binary64 rounding *)

Module Binary64Facts.
Import Binary64.

Local Open Scope Z_scope.

Lemma fexp_unfold (e : Z) : fexp e = Z.max (e - 53) (-1074).
Proof. reflexivity. Qed.

Lemma fexp_mono (a b : Z) : a ≤ b → fexp a ≤ fexp b.
Proof. rewrite !fexp_unfold. lia. Qed.

(** *** Digits *)

Lemma digits2_pos_bounds (p : positive) :
  2 ^ (Zpos (digits2_pos p) - 1) ≤ Zpos p < 2 ^ Zpos (digits2_pos p).
Proof.
  induction p as [p IH|p IH|]; simpl digits2_pos.
  - rewrite Pos2Z.inj_succ.
    replace (Z.succ (Zpos (digits2_pos p)) - 1) with (Z.succ (Zpos (digits2_pos p) - 1)) by lia.
    rewrite !Z.pow_succ_r by lia. lia.
  - rewrite Pos2Z.inj_succ.
    replace (Z.succ (Zpos (digits2_pos p)) - 1) with (Z.succ (Zpos (digits2_pos p) - 1)) by lia.
    rewrite !Z.pow_succ_r by lia. lia.
  - simpl. lia.
Qed.

Lemma digits2_pos_ge (p : positive) (k : Z) :
  2 ^ (k - 1) ≤ Zpos p → k ≤ Zpos (digits2_pos p).
Proof.
  intros Hk. destruct (digits2_pos_bounds p) as [_ Hub].
  destruct (Z.le_gt_cases k (Zpos (digits2_pos p))) as [|Hgt]; [done|].
  exfalso. assert (2 ^ Zpos (digits2_pos p) ≤ 2 ^ (k - 1))
    by (apply Z.pow_le_mono_r; lia). lia.
Qed.

Lemma digits2_pos_le (p : positive) (k : Z) :
  0 ≤ k → Zpos p < 2 ^ k → Zpos (digits2_pos p) ≤ k.
Proof.
  intros Hk0 Hk. destruct (digits2_pos_bounds p) as [Hlb _].
  destruct (Z.le_gt_cases (Zpos (digits2_pos p)) k) as [|Hgt]; [done|].
  exfalso. assert (2 ^ k ≤ 2 ^ (Zpos (digits2_pos p) - 1))
    by (apply Z.pow_le_mono_r; lia). lia.
Qed.

(** *** Values *)

Lemma bpow_pos (e : Z) : (0 < bpow e)%Q.
Proof. apply Qpower_0_lt. reflexivity. Qed.

Lemma bpow_add (a b : Z) : (bpow (a + b) == bpow a * bpow b)%Q.
Proof. apply Qpower_plus. discriminate. Qed.

Lemma bpow_inject (n : Z) : 0 ≤ n → (bpow n == inject_Z (2 ^ n))%Q.
Proof. intros Hn. unfold bpow. by rewrite Zpower_Qpower. Qed.

Lemma bpow_opp (e : Z) : (bpow (- e) * bpow e == 1)%Q.
Proof.
  rewrite <- bpow_add. replace (- e + e) with 0 by lia. reflexivity.
Qed.

Lemma Qmult_bpow_le (x y : Q) (n : Z) :
  (x <= y * bpow (- n))%Q → (x * bpow n <= y)%Q.
Proof.
  intros Hxy. pose proof (bpow_pos n). pose proof (bpow_opp n) as Ho.
  assert (x * bpow n <= y * bpow (- n) * bpow n)%Q
    by (apply Qmult_le_compat_r; lra).
  assert (y * bpow (- n) * bpow n == y)%Q
    by (rewrite <- Qmult_assoc, Ho; ring).
  lra.
Qed.

Lemma Qmult_bpow_ge (x y : Q) (n : Z) :
  (x * bpow (- n) <= y)%Q → (x <= y * bpow n)%Q.
Proof.
  intros Hxy. pose proof (bpow_pos n). pose proof (bpow_opp n) as Ho.
  assert (x * bpow (- n) * bpow n <= y * bpow n)%Q
    by (apply Qmult_le_compat_r; lra).
  assert (x * bpow (- n) * bpow n == x)%Q
    by (rewrite <- Qmult_assoc, Ho; ring).
  lra.
Qed.

Lemma bpow_lt_inv (a b : Z) : (bpow a < bpow b)%Q → a < b.
Proof.
  intros Hlt. destruct (Z.lt_ge_cases a b) as [|Hge]; [done|]. exfalso.
  pose proof (bpow_add b (a - b)) as Hadd.
  replace (b + (a - b)) with a in Hadd by lia.
  pose proof (bpow_inject (a - b) ltac:(lia)) as Hinj.
  assert (0 < 2 ^ (a - b)) by (apply Z.pow_pos_nonneg; lia).
  assert (1 ≤ 2 ^ (a - b)) by lia.
  assert (Hq : (inject_Z 1 <= inject_Z (2 ^ (a - b)))%Q)
    by (by rewrite <- Zle_Qle).
  change (inject_Z 1) with 1%Q in Hq.
  pose proof (bpow_pos b). nra.
Qed.

(** A value bounded by another has no more digits above the point. *)
Lemma F2Q_le_digits (m M : positive) (e E : Z) :
  (F2Q (Zpos m) e <= F2Q (Zpos M) E)%Q →
  Zpos (digits2_pos m) + e ≤ Zpos (digits2_pos M) + E.
Proof.
  unfold F2Q. intros Hle.
  destruct (digits2_pos_bounds m) as [Hm _].
  destruct (digits2_pos_bounds M) as [_ HM].
  rewrite Zle_Qle in Hm. rewrite Zlt_Qlt in HM.
  pose proof (bpow_inject (Zpos (digits2_pos m) - 1) ltac:(lia)) as Hm'.
  pose proof (bpow_inject (Zpos (digits2_pos M)) ltac:(lia)) as HM'.
  assert (Hlt : (bpow (Zpos (digits2_pos m) - 1 + e)
                 < bpow (Zpos (digits2_pos M) + E))%Q).
  { pose proof (bpow_add (Zpos (digits2_pos m) - 1) e).
    pose proof (bpow_add (Zpos (digits2_pos M)) E).
    pose proof (bpow_pos e). pose proof (bpow_pos E). nra. }
  apply bpow_lt_inv in Hlt. lia.
Qed.

(** *** Locations *)

Lemma inbetween_ext (m : Z) (l : location) (u v : Q) :
  (u == v)%Q → inbetween m l u → inbetween m l v.
Proof. intros Huv. destruct l as [|[]]; simpl; rewrite Huv; done. Qed.

Lemma inbetween_lower (m : Z) (l : location) (u : Q) :
  inbetween m l u → (inject_Z m <= u)%Q.
Proof. destruct l as [|[]]; simpl; lra. Qed.

Lemma loc_of_shr_record_of_loc (m : Z) (l : location) :
  loc_of_shr_record (shr_record_of_loc m l) = l
  ∧ shr_m (shr_record_of_loc m l) = m.
Proof. by destruct l as [|[]]. Qed.

Lemma inject_Z_xO (p : positive) : (inject_Z (Zpos p~0) == 2 * inject_Z (Zpos p))%Q.
Proof. change (Zpos p~0) with (2 * Zpos p). by rewrite inject_Z_mult. Qed.

Lemma inject_Z_xI (p : positive) :
  (inject_Z (Zpos p~1) == 2 * inject_Z (Zpos p) + 1)%Q.
Proof.
  change (Zpos p~1) with (2 * Zpos p + 1).
  by rewrite inject_Z_plus, inject_Z_mult.
Qed.

(** One shift to the right halves the located value. *)
Lemma shr_1_inbetween (mrs : shr_record) (u : Q) :
  0 ≤ shr_m mrs →
  inbetween (shr_m mrs) (loc_of_shr_record mrs) u →
  0 ≤ shr_m (shr_1 mrs)
  ∧ inbetween (shr_m (shr_1 mrs)) (loc_of_shr_record (shr_1 mrs)) (u * (1 # 2)).
Proof.
  destruct mrs as [m r s]. simpl shr_m at 1 2.
  intros Hm Hu. destruct m as [|p|p]; [| |lia].
  - destruct r, s; simpl in *;
      change (inject_Z 0) with 0%Q in *; split; try lia; lra.
  - destruct p as [p|p|]; destruct r, s; simpl in Hu |- *;
      rewrite ?inject_Z_xO, ?inject_Z_xI in Hu;
      change (inject_Z 0) with 0%Q in *; change (inject_Z 1) with 1%Q in *;
      split; try lia; lra.
Qed.

Lemma iter_shr_1_inbetween (p : positive) (mrs : shr_record) (u : Q) :
  0 ≤ shr_m mrs →
  inbetween (shr_m mrs) (loc_of_shr_record mrs) u →
  0 ≤ shr_m (SpecFloat.iter_pos shr_1 p mrs)
  ∧ inbetween (shr_m (SpecFloat.iter_pos shr_1 p mrs))
              (loc_of_shr_record (SpecFloat.iter_pos shr_1 p mrs))
              (u * bpow (- Zpos p)).
Proof.
  revert mrs u. induction p as [p IH|p IH|]; intros mrs u Hm Hu; simpl SpecFloat.iter_pos.
  - destruct (shr_1_inbetween mrs u Hm Hu) as [Hm1 Hu1].
    destruct (IH _ _ Hm1 Hu1) as [Hm2 Hu2].
    destruct (IH _ _ Hm2 Hu2) as [Hm3 Hu3].
    split; [done|]. eapply inbetween_ext; [|exact Hu3].
    pose proof (bpow_add (- Zpos p) (- Zpos p)) as H1.
    pose proof (bpow_add (-1) (- Zpos p + - Zpos p)) as H2.
    replace (-1 + (- Zpos p + - Zpos p)) with (- Zpos p~1) in H2 by lia.
    change (bpow (-1)) with (1 # 2)%Q in H2. rewrite H2, H1. ring.
  - destruct (IH _ _ Hm Hu) as [Hm2 Hu2].
    destruct (IH _ _ Hm2 Hu2) as [Hm3 Hu3].
    split; [done|]. eapply inbetween_ext; [|exact Hu3].
    pose proof (bpow_add (- Zpos p) (- Zpos p)) as H1.
    replace (- Zpos p + - Zpos p) with (- Zpos p~0) in H1 by lia.
    rewrite H1. ring.
  - destruct (shr_1_inbetween mrs u Hm Hu) as [Hm1 Hu1].
    split; [done|]. eapply inbetween_ext; [|exact Hu1]. reflexivity.
Qed.

(** [shr] by [n] places moves the exponent up by [n] and divides the
    located value by [2^n]; it does nothing when [n] is not positive. *)
Lemma shr_inbetween (mrs : shr_record) (e n : Z) (u : Q) :
  0 ≤ shr_m mrs →
  inbetween (shr_m mrs) (loc_of_shr_record mrs) u →
  snd (shr mrs e n) = e + Z.max 0 n
  ∧ 0 ≤ shr_m (fst (shr mrs e n))
  ∧ inbetween (shr_m (fst (shr mrs e n)))
              (loc_of_shr_record (fst (shr mrs e n)))
              (u * bpow (- Z.max 0 n)).
Proof.
  intros Hm Hu. destruct n as [|p|p]; simpl.
  - split; [lia|]. split; [done|].
    eapply inbetween_ext; [|exact Hu].
    change (bpow (-0)) with 1%Q. ring.
  - split; [lia|]. by apply iter_shr_1_inbetween.
  - split; [lia|]. split; [done|].
    eapply inbetween_ext; [|exact Hu].
    change (bpow (-0)) with 1%Q. ring.
Qed.

(** *** Rounding to nearest *)

Lemma round_nearest_even_near (m : Z) (l : location) (u : Q) :
  inbetween m l u →
  m ≤ round_nearest_even m l
  ∧ (inject_Z (round_nearest_even m l) <= u + (1 # 2))%Q.
Proof.
  destruct l as [|[]]; simpl; intros Hu.
  - split; [lia|lra].
  - destruct (Z.even m); [split; [lia|lra]|].
    split; [lia|]. rewrite inject_Z_plus.
    change (inject_Z 1) with 1%Q. lra.
  - split; [lia|lra].
  - split; [lia|]. rewrite inject_Z_plus.
    change (inject_Z 1) with 1%Q. lra.
Qed.

(** What lies at or below an integer rounds to at most that integer. *)
Lemma round_nearest_even_le (m : Z) (l : location) (u : Q) (K : Z) :
  inbetween m l u → (u <= inject_Z K)%Q → round_nearest_even m l ≤ K.
Proof.
  intros Hu HK. destruct (round_nearest_even_near m l u Hu) as [_ Hr].
  assert (Hlt : round_nearest_even m l < K + 1).
  { rewrite Zlt_Qlt, inject_Z_plus. change (inject_Z 1) with 1%Q. lra. }
  lia.
Qed.

(** *** The rounding step of every operation *)

(** Rounding is monotone against a representable bound: if the exact
    value [u * 2^ex], located by [mx] and [lx], is at most the binary64
    number [Mb * 2^Eb], so is the rounded result. *)
Lemma binary_round_aux_le (mx : positive) (ex : Z) (lx : location) (u : Q)
    (Mb : positive) (Eb : Z) :
  inbetween (Zpos mx) lx u →
  ex ≤ fexp (Zpos (digits2_pos mx) + ex) →
  fexp (Zpos (digits2_pos Mb) + Eb) = Eb →
  Eb ≤ 971 →
  (u * bpow ex <= F2Q (Zpos Mb) Eb)%Q →
  bounded_by Mb Eb (binary_round_aux JS.prec JS.emax false (Zpos mx) ex lx).
Proof.
  intros Hu Hex HB HEb Hle.
  set (e1 := fexp (Zpos (digits2_pos mx) + ex)) in *.
  pose proof (inbetween_lower _ _ _ Hu) as Hlow.
  pose proof (bpow_pos ex) as Hpex.
  assert (He1 : e1 ≤ Eb).
  { rewrite <- HB. apply fexp_mono, F2Q_le_digits. unfold F2Q in *. nra. }
  (* first shift *)
  unfold binary_round_aux, shr_fexp.
  change (Zdigits2 (Zpos mx)) with (Zpos (digits2_pos mx)). fold e1.
  destruct (loc_of_shr_record_of_loc (Zpos mx) lx) as [Hloc Hshm].
  destruct (shr_inbetween (shr_record_of_loc (Zpos mx) lx) ex (e1 - ex) u)
    as (Hs1 & Hm1 & Hu1); [rewrite Hshm; lia | by rewrite Hloc, Hshm|].
  destruct (shr (shr_record_of_loc (Zpos mx) lx) ex (e1 - ex)) as [mrs' e'].
  simpl in Hs1, Hm1, Hu1.
  replace (Z.max 0 (e1 - ex)) with (e1 - ex) in * by lia.
  assert (e' = e1) as -> by lia. clear Hs1.
  (* rounding *)
  set (K := Zpos Mb * 2 ^ (Eb - e1)).
  pose proof (bpow_inject (Eb - e1) ltac:(lia)) as Hinj.
  pose proof (bpow_pos (- e1)) as Hpe1.
  pose proof (bpow_pos e1) as Hpe1'.
  pose proof (bpow_opp e1) as Hopp.
  assert (HK : (u * bpow (- (e1 - ex)) <= inject_Z K)%Q).
  { unfold K. rewrite inject_Z_mult, <- Hinj.
    replace (- (e1 - ex)) with (ex + - e1) by lia.
    replace (Eb - e1) with (Eb + - e1) by lia.
    rewrite !bpow_add. unfold F2Q in Hle. nra. }
  pose proof (round_nearest_even_le _ _ _ K Hu1 HK) as Hr.
  destruct (round_nearest_even_near _ _ _ Hu1) as [Hge1 _].
  set (m1 := round_nearest_even (shr_m mrs') (loc_of_shr_record mrs')) in *.
  assert (Hm1B : (F2Q m1 e1 <= F2Q (Zpos Mb) Eb)%Q).
  { unfold F2Q. rewrite Zle_Qle in Hr. unfold K in Hr.
    rewrite inject_Z_mult, <- Hinj in Hr.
    replace (Eb - e1) with (Eb + - e1) in Hr by lia.
    apply Qmult_bpow_le. by rewrite <- Qmult_assoc, <- bpow_add. }
  (* second shift *)
  destruct (loc_of_shr_record_of_loc m1 loc_Exact) as [Hloc2 Hshm2].
  destruct (shr_inbetween (shr_record_of_loc m1 loc_Exact) e1
              (fexp (Zdigits2 m1 + e1) - e1) (inject_Z m1))
    as (Hs2 & Hm2 & Hu2);
    [rewrite Hshm2; lia | rewrite Hloc2, Hshm2; simpl; reflexivity|].
  destruct (shr (shr_record_of_loc m1 loc_Exact) e1
              (fexp (Zdigits2 m1 + e1) - e1)) as [mrs'' e''].
  simpl in Hs2, Hm2, Hu2. apply inbetween_lower in Hu2.
  set (n := Z.max 0 (fexp (Zdigits2 m1 + e1) - e1)) in *.
  pose proof (bpow_pos n) as Hpn. pose proof (bpow_pos (- n)) as Hpn'.
  pose proof (bpow_opp n) as Hoppn.
  destruct (shr_m mrs'') as [|m2|m2]; [done| |lia].
  assert (Hm1pos : 0 < m1).
  { rewrite Zlt_Qlt. assert (0 < inject_Z (Zpos m2))%Q by reflexivity.
    change (inject_Z 0) with 0%Q. nra. }
  destruct m1 as [|p1|p1]; try lia.
  assert (He'' : e'' ≤ 971).
  { apply F2Q_le_digits in Hm1B. apply fexp_mono in Hm1B.
    change (Zdigits2 (Zpos p1)) with (Zpos (digits2_pos p1)) in n. lia. }
  replace (e'' <=? JS.emax - JS.prec) with true
    by (symmetry; apply Z.leb_le; exact He'').
  split; [done|].
  eapply Qle_trans; [|exact Hm1B]. unfold F2Q. rewrite Hs2, bpow_add.
  rewrite (Qmult_comm (bpow e1)), Qmult_assoc.
  apply Qmult_le_compat_r; [|lra]. by apply Qmult_bpow_le.
Qed.

(** A mantissa of the right width at an exponent in range rounds to
    itself. *)
Lemma binary_round_aux_canonical (s : bool) (m : positive) (e : Z) :
  fexp (Zpos (digits2_pos m) + e) = e → e ≤ 971 →
  binary_round_aux JS.prec JS.emax s (Zpos m) e loc_Exact = S754_finite s m e.
Proof.
  intros Hc He. unfold binary_round_aux, shr_fexp.
  change (Zdigits2 (Zpos m)) with (Zpos (digits2_pos m)).
  rewrite Hc, Z.sub_diag. cbn [shr shr_record_of_loc shr_m loc_of_shr_record
                               round_nearest_even].
  change (Zdigits2 (Zpos m)) with (Zpos (digits2_pos m)).
  rewrite Hc, Z.sub_diag. cbn [shr shr_record_of_loc shr_m].
  replace (e <=? JS.emax - JS.prec) with true; [done|].
  symmetry. by apply Z.leb_le.
Qed.

(** *** Integers as binary64 numbers *)

Lemma iter_xO (k : positive) (p : positive) :
  Zpos (Pos.iter xO p k) = Zpos p * 2 ^ Zpos k
  ∧ Zpos (digits2_pos (Pos.iter xO p k)) = Zpos (digits2_pos p) + Zpos k.
Proof.
  induction k as [|k [IH1 IH2]] using Pos.peano_ind.
  - simpl. split; lia.
  - rewrite Pos.iter_succ. cbn [digits2_pos].
    rewrite !Pos2Z.inj_succ, Z.pow_succ_r by lia.
    change (Zpos (Pos.iter xO p k)~0) with (2 * Zpos (Pos.iter xO p k)).
    split; lia.
Qed.

(** A positive integer below 2^53 is a binary64 number: its mantissa is
    the integer shifted left to 53 bits. *)
Lemma of_Z_exact (n : positive) :
  Zpos n < 2 ^ 53 →
  ∃ m e, JS.of_Z (Zpos n) = S754_finite false m e
         ∧ -52 ≤ e ≤ 0
         ∧ Zpos m = Zpos n * 2 ^ (- e)
         ∧ Zpos (digits2_pos m) = 53.
Proof.
  intros Hn.
  assert (Hd : 1 ≤ Zpos (digits2_pos n) ≤ 53)
    by (split; [lia | by apply digits2_pos_le]).
  unfold JS.of_Z, binary_normalize, binary_round, shl_align.
  rewrite fexp_unfold.
  replace (Z.max (Zpos (digits2_pos n) + 0 - 53) (-1074) - 0)
    with (Zpos (digits2_pos n) - 53) by lia.
  destruct (Zpos (digits2_pos n) - 53) as [|k|k] eqn:Hk; [|lia|].
  - exists n, 0. rewrite binary_round_aux_canonical;
      [|rewrite fexp_unfold; lia|lia].
    repeat split; lia.
  - destruct (iter_xO k n) as [Hv Hdig].
    exists (Pos.iter xO n k), (Zpos (digits2_pos n) + 0 - 53).
    replace (Z.max (Zpos (digits2_pos n) + 0 - 53) (-1074))
      with (Zpos (digits2_pos n) + 0 - 53) by lia.
    rewrite binary_round_aux_canonical;
      [|rewrite fexp_unfold; lia|lia].
    repeat split; try lia.
    rewrite Hv. f_equal. f_equal. lia.
Qed.

Lemma F2Q_of_Z_exact (n m : positive) (e : Z) :
  e ≤ 0 → Zpos m = Zpos n * 2 ^ (- e) → (F2Q (Zpos m) e == inject_Z (Zpos n))%Q.
Proof.
  intros He Hm. unfold F2Q. rewrite Hm, inject_Z_mult.
  pose proof (bpow_inject (- e) ltac:(lia)) as Hinj. rewrite <- Hinj.
  by rewrite <- Qmult_assoc, bpow_opp, Qmult_1_r.
Qed.

(** *** Division *)

(** The location of a quotient, from the remainder of its division. *)
Lemma new_location_inbetween (D q r : Z) :
  0 ≤ r < D →
  inbetween q (new_location D r) (inject_Z q + inject_Z r / inject_Z D).
Proof.
  intros Hr.
  assert (HD : (0 < inject_Z D)%Q)
    by (change 0%Q with (inject_Z 0); rewrite <- Zlt_Qlt; lia).
  assert (Hr0 : (0 <= inject_Z r)%Q)
    by (change 0%Q with (inject_Z 0); rewrite <- Zle_Qle; lia).
  set (f := (inject_Z r / inject_Z D)%Q).
  assert (Hf : (f * inject_Z D == inject_Z r)%Q)
    by (unfold f; field; lra).
  assert (Hzero : r = 0 → (f == 0)%Q).
  { intros ->. unfold f. change (inject_Z 0) with 0%Q. field. lra. }
  assert (Hpos : r ≠ 0 → (0 < f)%Q).
  { intros Hne. apply Qlt_shift_div_l; [done|].
    rewrite Qmult_0_l. change 0%Q with (inject_Z 0). rewrite <- Zlt_Qlt. lia. }
  assert (Hone : (f < 1)%Q).
  { apply Qlt_shift_div_r; [done|]. rewrite Qmult_1_l, <- Zlt_Qlt. lia. }
  assert (Hcmp : ∀ c, (2 * r ?= D) = c →
            match c with
            | Lt => (f < 1 # 2)%Q
            | Eq => (f == 1 # 2)%Q
            | Gt => ((1 # 2) < f)%Q
            end).
  { intros c Hc. destruct c.
    - apply Z.compare_eq in Hc.
      assert (Hq : (2 * inject_Z r == inject_Z D)%Q).
      { change 2%Q with (inject_Z 2). by rewrite <- inject_Z_mult, Hc. }
      unfold f. field_simplify_eq; lra.
    - change (2 * r < D) in Hc. rewrite Zlt_Qlt, inject_Z_mult in Hc.
      change (inject_Z 2) with 2%Q in Hc.
      apply Qlt_shift_div_r; [done|]. lra.
    - apply Z.compare_gt_iff in Hc. change (D < 2 * r) in Hc.
      rewrite Zlt_Qlt, inject_Z_mult in Hc.
      change (inject_Z 2) with 2%Q in Hc.
      apply Qlt_shift_div_l; [done|]. lra. }
  unfold new_location, new_location_even, new_location_odd.
  destruct (Z.even D) eqn:Hev.
  - destruct (r =? 0) eqn:Hr0'.
    + apply Z.eqb_eq in Hr0'. simpl. rewrite (Hzero Hr0'). ring.
    + apply Z.eqb_neq in Hr0'. specialize (Hpos Hr0').
      specialize (Hcmp _ eq_refl).
      destruct (2 * r ?= D); simpl; lra.
  - destruct (r =? 0) eqn:Hr0'.
    + apply Z.eqb_eq in Hr0'. simpl. rewrite (Hzero Hr0'). ring.
    + apply Z.eqb_neq in Hr0'. specialize (Hpos Hr0').
      specialize (Hcmp _ eq_refl).
      assert (Hodd : 2 * r ≠ D).
      { intros <-. rewrite Z.even_mul in Hev. done. }
      destruct (2 * r + 1 ?= D) eqn:Hc1.
      * apply Z.compare_eq in Hc1.
        destruct (2 * r ?= D) eqn:Hc2; simpl;
          [apply Z.compare_eq in Hc2 | | change (2 * r > D) in Hc2];
          try lia; lra.
      * change (2 * r + 1 < D) in Hc1.
        destruct (2 * r ?= D) eqn:Hc2; simpl;
          [apply Z.compare_eq in Hc2 | | change (2 * r > D) in Hc2];
          try lia; lra.
      * change (2 * r + 1 > D) in Hc1.
        destruct (2 * r ?= D) eqn:Hc2; simpl;
          [apply Z.compare_eq in Hc2 | change (2 * r < D) in Hc2 |];
          try lia; lra.
Qed.

Lemma F2Q_one : (F2Q (Zpos one_mantissa) (-52) == 1)%Q.
Proof. reflexivity. Qed.

Lemma SFdiv_core_binary_53 (mx my : positive) (ex ey : Z) :
  Zpos (digits2_pos mx) = 53 → Zpos (digits2_pos my) = 53 →
  -52 ≤ ex ≤ 0 → -52 ≤ ey ≤ 0 →
  SFdiv_core_binary JS.prec JS.emax (Zpos mx) ex (Zpos my) ey
  = (Zpos mx * 2 ^ 53 / Zpos my, ex - ey - 53,
     new_location (Zpos my) ((Zpos mx * 2 ^ 53) mod Zpos my)).
Proof.
  intros Hdx Hdy Hex Hey. unfold SFdiv_core_binary.
  change (Zdigits2 (Zpos mx)) with (Zpos (digits2_pos mx)).
  change (Zdigits2 (Zpos my)) with (Zpos (digits2_pos my)).
  rewrite Hdx, Hdy. cbv zeta. rewrite fexp_unfold.
  replace (Z.min (Z.max (53 + ex - (53 + ey) - 53) (-1074)) (ex - ey))
    with (ex - ey - 53) by lia.
  replace (ex - ey - (ex - ey - 53)) with 53 by lia.
  cbv iota. rewrite Z.shiftl_mul_pow2 by lia.
  unfold Z.div, Z.modulo. by destruct (Z.div_eucl _ _).
Qed.

(** The quotient of two 53-bit numbers, the first at most the second,
    is at most 1. *)
Lemma div_le_one (mx my : positive) (ex ey : Z) :
  Zpos (digits2_pos mx) = 53 → Zpos (digits2_pos my) = 53 →
  -52 ≤ ex ≤ 0 → -52 ≤ ey ≤ 0 →
  (F2Q (Zpos mx) ex <= F2Q (Zpos my) ey)%Q →
  bounded_by one_mantissa (-52)
    (JS.div (S754_finite false mx ex) (S754_finite false my ey)).
Proof.
  intros Hdx Hdy Hex Hey Hle. unfold JS.div, SFdiv.
  rewrite SFdiv_core_binary_53 by done. cbn [xorb].
  destruct (digits2_pos_bounds mx) as [Hmx _].
  destruct (digits2_pos_bounds my) as [_ Hmy].
  rewrite Hdx in Hmx. rewrite Hdy in Hmy.
  pose proof (Z.div_mod (Zpos mx * 2 ^ 53) (Zpos my) ltac:(lia)) as Hdiv.
  pose proof (Z.mod_pos_bound (Zpos mx * 2 ^ 53) (Zpos my) ltac:(lia)) as Hmod.
  assert (Hq : 2 ^ 52 ≤ Zpos mx * 2 ^ 53 / Zpos my)
    by (apply Z.div_le_lower_bound; lia).
  set (r := (Zpos mx * 2 ^ 53) mod Zpos my) in *.
  destruct (Zpos mx * 2 ^ 53 / Zpos my) as [|qp|qp]; try lia.
  pose proof (digits2_pos_ge qp 53 Hq) as Hdq.
  set (X := inject_Z (Zpos mx)). set (Y := inject_Z (Zpos my)).
  assert (HY : (0 < Y)%Q) by reflexivity.
  apply binary_round_aux_le
    with (u := (inject_Z (Zpos qp) + inject_Z r / Y)%Q).
  - by apply new_location_inbetween.
  - rewrite fexp_unfold. lia.
  - reflexivity.
  - lia.
  - rewrite F2Q_one.
    assert (Hu : (inject_Z (Zpos qp) + inject_Z r / Y == X * bpow 53 / Y)%Q).
    { pose proof (bpow_inject 53 ltac:(lia)) as H53. rewrite H53.
      unfold X. rewrite <- inject_Z_mult, Hdiv.
      rewrite inject_Z_plus, inject_Z_mult. fold Y. field. lra. }
    rewrite Hu.
    assert (Hb : (bpow 53 * bpow (ex - ey - 53) == bpow ex * bpow (- ey))%Q).
    { rewrite <- !bpow_add. by replace (53 + (ex - ey - 53)) with (ex + - ey) by lia. }
    assert (Hs : (X * bpow 53 / Y * bpow (ex - ey - 53)
                  == X * bpow ex * bpow (- ey) / Y)%Q).
    { transitivity (X * (bpow 53 * bpow (ex - ey - 53)) / Y)%Q;
        [field; lra|]. rewrite Hb. field. lra. }
    rewrite Hs. apply Qle_shift_div_r; [done|]. rewrite Qmult_1_l.
    apply Qmult_bpow_le. by rewrite Z.opp_involutive.
Qed.

(** *** Multiplication by 100 and [Math.round] *)

Lemma of_Z_100 : JS.of_Z 100 = S754_finite false hundred_mantissa (-46).
Proof. reflexivity. Qed.

Lemma F2Q_hundred : (F2Q (Zpos hundred_mantissa) (-46) == 100)%Q.
Proof. reflexivity. Qed.

(** A number that is at most 1, times 100, is at most 100. *)
Lemma mul_100_le (x : spec_float) :
  bounded_by one_mantissa (-52) x →
  bounded_by hundred_mantissa (-46) (JS.mul x (JS.of_Z 100)).
Proof.
  rewrite of_Z_100. destruct x as [s|s| |s m e]; simpl bounded_by; try done.
  - intros ->. reflexivity.
  - intros [-> Hle]. rewrite F2Q_one in Hle.
    unfold JS.mul, SFmul. cbn [xorb].
    apply binary_round_aux_le
      with (u := inject_Z (Zpos (m * hundred_mantissa))).
    + simpl. reflexivity.
    + assert (53 ≤ Zpos (digits2_pos (m * hundred_mantissa))).
      { apply digits2_pos_ge. rewrite Pos2Z.inj_mul.
        assert (2 ^ (53 - 1) ≤ Zpos hundred_mantissa) by (vm_compute; discriminate).
        nia. }
      rewrite fexp_unfold. lia.
    + reflexivity.
    + lia.
    + rewrite Pos2Z.inj_mul, inject_Z_mult, bpow_add.
      unfold F2Q in *.
      assert (Hh : (0 <= inject_Z (Zpos hundred_mantissa) * bpow (-46))%Q)
        by (vm_compute; discriminate).
      set (h := (inject_Z (Zpos hundred_mantissa) * bpow (-46))%Q) in *.
      assert (Heq : (inject_Z (Zpos m) * inject_Z (Zpos hundred_mantissa)
                       * (bpow e * bpow (-46))
                     == inject_Z (Zpos m) * bpow e * h)%Q)
        by (unfold h; ring).
      rewrite Heq. apply Qle_trans with (1 * h)%Q;
        [by apply Qmult_le_compat_r | rewrite Qmult_1_l; apply Qle_refl].
Qed.

Lemma round_half_up_le_100 (m : positive) (e : Z) :
  (F2Q (Zpos m) e <= 100)%Q → 0 ≤ JS.round_half_up false m e ≤ 100.
Proof.
  unfold F2Q, JS.round_half_up, cond_Zopp. intros Hle.
  destruct e as [|p|p].
  - change (bpow 0) with 1%Q in Hle. rewrite Qmult_1_r in Hle.
    change 100%Q with (inject_Z 100) in Hle. rewrite <- Zle_Qle in Hle. lia.
  - pose proof (bpow_inject (Zpos p) ltac:(lia)) as Hinj.
    rewrite Hinj, <- inject_Z_mult in Hle.
    change 100%Q with (inject_Z 100) in Hle. rewrite <- Zle_Qle in Hle.
    assert (0 < 2 ^ Zpos p) by (apply Z.pow_pos_nonneg; lia). nia.
  - change (Zneg p) with (- Zpos p) in Hle. apply Qmult_bpow_ge in Hle.
    pose proof (bpow_inject (Zpos p) ltac:(lia)) as Hinj.
    change 100%Q with (inject_Z 100) in Hle.
    rewrite Hinj, <- inject_Z_mult, <- Zle_Qle in Hle.
    assert (Hp : 0 < 2 ^ Zpos p) by (apply Z.pow_pos_nonneg; lia).
    rewrite Z.pow_add_r by lia. change (2 ^ 1) with 2. split.
    + apply Z.div_pos; lia.
    + apply Z.lt_succ_r, Z.div_lt_upper_bound; lia.
Qed.

Lemma Math_round_le_100 (y : spec_float) :
  bounded_by hundred_mantissa (-46) y → isPercentage (JS.Math_round y).
Proof.
  destruct y as [s|s| |s m e]; simpl bounded_by; try done.
  - intros ->. exists 0. split; [lia|reflexivity].
  - intros [-> Hle]. rewrite F2Q_hundred in Hle.
    apply round_half_up_le_100 in Hle.
    exists (JS.round_half_up false m e). split; [done|].
    unfold JS.Math_round. cbv zeta.
    destruct (JS.round_half_up false m e =? 0) eqn:Hz; [|done].
    apply Z.eqb_eq in Hz. by rewrite Hz.
Qed.

(** [Math.round((count / total) * 100)] is a percentage whenever
    [0 <= count <= total], [0 < total] and [total < 2^53]. *)
Lemma round_ratio_isPercentage (count total : Z) :
  0 ≤ count ≤ total → 0 < total < 2 ^ 53 →
  isPercentage
    (JS.Math_round (JS.mul (JS.div (JS.of_Z count) (JS.of_Z total))
                           (JS.of_Z 100))).
Proof.
  intros Hc Ht. apply Math_round_le_100, mul_100_le.
  destruct total as [|t|t]; try lia.
  destruct (of_Z_exact t) as (mt & et & -> & Het & Hmt & Hdt); [lia|].
  destruct count as [|c|c]; try lia; [reflexivity|].
  destruct (of_Z_exact c) as (mc & ec & -> & Hec & Hmc & Hdc); [lia|].
  apply div_le_one; try done.
  rewrite !F2Q_of_Z_exact by (done || lia).
  rewrite <- Zle_Qle. lia.
Qed.

Lemma sub_100_isPercentage (x : spec_float) :
  isPercentage x → isPercentage (JS.sub (JS.of_Z 100) x).
Proof.
  intros (z & Hz & ->). exists (100 - z). split; [lia|].
  assert (Htab : sub_table = true) by (vm_compute; reflexivity).
  unfold sub_table in Htab. rewrite forallb_forall in Htab.
  specialize (Htab (Z.to_nat z) ltac:(apply in_seq; lia)).
  apply bool_decide_eq_true in Htab. by rewrite Z2Nat.id in Htab by lia.
Qed.

End Binary64Facts.

(** ** The per-habit percentage *)

Lemma percentageOf_table_31 : percentageOf_table 31 = true.
Proof. vm_compute. reflexivity. Qed.

Lemma percentageOf_month (count total : nat) :
  count ≤ total → total ≤ 31 →
  percentageOf count total
  = JS.of_Z (if total =? 0 then 0
             else Spec.roundHalfUp (100 * Z.of_nat count) (Z.of_nat total)).
Proof.
  intros Hc Ht. pose proof percentageOf_table_31 as Htab.
  unfold percentageOf_table in Htab. rewrite forallb_forall in Htab.
  specialize (Htab total). rewrite forallb_forall in Htab.
  - specialize (Htab ltac:(apply in_seq; lia) count ltac:(apply in_seq; lia)).
    by apply bool_decide_eq_true in Htab.
Qed.

Lemma tally_counts (v : PropertyValue) (count total : nat) :
  tally v (count, total)
  = (count + (if bool_decide (statusOfValue v ≠ Skipped)
                 && bool_decide (statusOfValue v = Done) then 1 else 0),
     total + (if bool_decide (statusOfValue v ≠ Skipped) then 1 else 0)).
Proof. destruct v as [[]|]; simpl; f_equal; lia. Qed.

Lemma getHabitStats_fold days c habitId (count total : nat) :
  fold_left
    (fun acc day => tally (getStatus c (DateFns.format_yyyy_MM_dd day) habitId) acc)
    days (count, total)
  = (count + Spec.numerator days c habitId,
     total + Spec.denominator days c habitId).
Proof.
  revert count total. induction days as [|day days IH]; intros count total.
  - simpl. f_equal; unfold Spec.numerator, Spec.denominator; simpl; lia.
  - cbn [fold_left]. rewrite tally_counts, IH.
    unfold Spec.numerator, Spec.denominator. cbn [List.filter].
    unfold Spec.completed, Spec.eligible, cellStatus.
    destruct (bool_decide (statusOfValue _ ≠ Skipped));
      destruct (bool_decide (statusOfValue _ = Done)); cbn [andb length];
      f_equal; lia.
Qed.

Lemma numerator_le_denominator days c habitId :
  Spec.numerator days c habitId ≤ Spec.denominator days c habitId
  ∧ Spec.denominator days c habitId ≤ length days.
Proof.
  unfold Spec.numerator, Spec.denominator, Spec.completed.
  induction days as [|day days [IH1 IH2]]; simpl; [lia|].
  destruct (Spec.eligible c habitId day); simpl;
    [destruct (bool_decide _)|]; simpl; lia.
Qed.

Lemma eachDayOfMonth_length (d : Date) :
  28 ≤ length (DateFns.eachDayOfMonth d) ≤ 31.
Proof.
  unfold DateFns.eachDayOfMonth. rewrite length_map, length_seq.
  unfold DateFns.getDaysInMonth.
  destruct (month d) as [|[|[|[|[|[|[|[|[|[|[|?]]]]]]]]]]];
    try destruct (DateFns.isLeapYear _); lia.
Qed.

Lemma getHabitStats_bounded_days days c habitId :
  length days ≤ 31 →
  getHabitStats days c habitId
  = mkHabitStats (Spec.numerator days c habitId)
                 (Spec.denominator days c habitId)
                 (JS.of_Z (Spec.habitPercentage days c habitId)).
Proof.
  intros Hlen. unfold getHabitStats. rewrite getHabitStats_fold. simpl.
  destruct (numerator_le_denominator days c habitId) as [Hn Hd].
  rewrite percentageOf_month by lia. reflexivity.
Qed.

(** C1: for every habit id, month and completion log, [getHabitStats]
    counts as eligible each day of the month whose status for the habit is
    not Skipped (an Unset day is eligible and not completed), counts the
    eligible days that are Done as completed, and returns
    [100 * completed / eligible] rounded half-up, 0 when nothing is
    eligible.  The same holds on any list of at most 31 days; one Done day
    out of the two days 2024-01-01 and 2024-01-02 gives 50. *)
Theorem getHabitStats_spec :
  (∀ (current : Date) (c : HabitCompletion) (habitId : string),
     let days := DateFns.eachDayOfMonth current in
     getHabitStats days c habitId
     = mkHabitStats (Spec.numerator days c habitId)
                    (Spec.denominator days c habitId)
                    (JS.of_Z (Spec.habitPercentage days c habitId)))
  ∧ (∀ (days : list Date) (c : HabitCompletion) (habitId : string),
       length days ≤ 31 →
       getHabitStats days c habitId
       = mkHabitStats (Spec.numerator days c habitId)
                      (Spec.denominator days c habitId)
                      (JS.of_Z (Spec.habitPercentage days c habitId)))
  ∧ getHabitStats [mkDate 2024 0 1; mkDate 2024 0 2]
                  {[ "2024-01-01" := {[ "1" := StTrue ]} ]} "1"
    = mkHabitStats 1 2 (JS.of_Z 50).
Proof.
  split; [|split].
  - intros current c habitId days. apply getHabitStats_bounded_days.
    apply eachDayOfMonth_length.
  - apply getHabitStats_bounded_days.
  - vm_compute. reflexivity.
Qed.

Lemma getHabitStats_spec_witness :
  let days := [mkDate 2024 0 1; mkDate 2024 0 2] in
  let c : HabitCompletion :=
    {[ "2024-01-01" := {[ "1" := StSkipped ]}; "2024-01-02" := ∅ ]} in
  length days ≤ 31
  ∧ getHabitStats days c "1" = mkHabitStats 0 1 (JS.of_Z 0).
Proof.
  cbv zeta. split; [simpl; lia|].
  rewrite (proj1 (proj2 getHabitStats_spec)) by (simpl; lia).
  vm_compute. reflexivity.
Defined.

(** ** Percentages are integers from 0 to 100 *)

Import Binary64.

Lemma percentageOf_isPercentage (count total : nat) :
  count ≤ total → (Z.of_nat total < 2 ^ 53)%Z →
  isPercentage (percentageOf count total).
Proof.
  intros Hc Ht. unfold percentageOf.
  destruct (total =? 0) eqn:H0.
  - exists 0%Z. split; [lia|reflexivity].
  - apply Nat.eqb_neq in H0.
    apply Binary64Facts.round_ratio_isPercentage; lia.
Qed.

Lemma tally_bounds (v : PropertyValue) (acc : nat * nat) :
  acc.1 ≤ acc.2 →
  (tally v acc).1 ≤ (tally v acc).2 ∧ (tally v acc).2 ≤ acc.2 + 1.
Proof. destruct acc as [count total], v as [[]|]; simpl; lia. Qed.

Lemma tallyDay_bounds (hs : list Habit) (c : HabitCompletion) (day : Date)
    (acc : nat * nat) :
  acc.1 ≤ acc.2 →
  (tallyDay hs c day acc).1 ≤ (tallyDay hs c day acc).2
  ∧ (tallyDay hs c day acc).2 ≤ acc.2 + length hs.
Proof.
  unfold tallyDay. revert acc.
  induction hs as [|h hs IH]; intros acc Hacc; cbn [fold_left length]; [lia|].
  destruct (tally_bounds
              (dayStatus (dayCompletionsOf c (DateFns.format_yyyy_MM_dd day)) (id h))
              acc Hacc) as [H1 H2].
  destruct (IH _ H1) as [H3 H4]. lia.
Qed.

Lemma tallyDays_bounds (days : list Date) (hs : list Habit) (c : HabitCompletion)
    (acc : nat * nat) :
  acc.1 ≤ acc.2 →
  (fold_left (fun acc day => tallyDay hs c day acc) days acc).1
  ≤ (fold_left (fun acc day => tallyDay hs c day acc) days acc).2
  ∧ (fold_left (fun acc day => tallyDay hs c day acc) days acc).2
    ≤ acc.2 + length days * length hs.
Proof.
  revert acc. induction days as [|day days IH]; intros acc Hacc;
    cbn [fold_left length]; [lia|].
  destruct (tallyDay_bounds hs c day acc Hacc) as [H1 H2].
  destruct (IH _ H1) as [H3 H4]. lia.
Qed.

Lemma month_total_small (days : list Date) (hs : list Habit) (total : nat) :
  length days ≤ 31 → (Z.of_nat (length hs) < 2 ^ 32)%Z →
  total ≤ 0 + length days * length hs →
  (Z.of_nat total < 2 ^ 53)%Z.
Proof.
  intros Hd Hh Ht.
  assert (Z.of_nat total ≤ 31 * Z.of_nat (length hs))%Z by nia.
  change (2 ^ 53)%Z with (2097152 * 2 ^ 32)%Z. lia.
Qed.

(** C10: every percentage the statistics produce is an integer between 0
    and 100: for each habit, for each day, for the month (the completed
    and the incomplete share), and for each of the 12 months of the year.
    A habit list is a JavaScript array, so it has fewer than 2^32
    elements. *)
Theorem percentages_in_range (now : Date) (st : AppState) :
  (Z.of_nat (length (habits st)) < 2 ^ 32)%Z →
  (∀ habitId,
     isPercentage
       (hs_percentage (getHabitStats (daysInMonth st) (completions st) habitId)))
  ∧ (∀ i e,
       dailyProgressData (daysInMonth st) (habits st) (completions st) !! i = Some e →
       isPercentage (dp_percentage e))
  ∧ isPercentage
      (mo_completed (monthlyOverallStats (daysInMonth st) (habits st) (completions st)))
  ∧ isPercentage
      (mo_incomplete (monthlyOverallStats (daysInMonth st) (habits st) (completions st)))
  ∧ length (yearlyStats now (currentDate st) (habits st) (completions st)) = 12
  ∧ (∀ i e,
       yearlyStats now (currentDate st) (habits st) (completions st) !! i = Some e →
       isPercentage (ym_percentage e)).
Proof.
  intros Hhabits.
  assert (H32 : (2 ^ 32 < 2 ^ 53)%Z) by reflexivity.
  split; [|split; [|split; [|split; [|split]]]].
  - intros habitId. rewrite getHabitStats_percentage.
    unfold getHabitStats. rewrite getHabitStats_fold. simpl.
    destruct (numerator_le_denominator (daysInMonth st) (completions st) habitId)
      as [Hn Hd].
    pose proof (eachDayOfMonth_length (currentDate st)) as Hlen.
    fold (daysInMonth st) in Hlen.
    apply percentageOf_isPercentage; [done|].
    change (2 ^ 53)%Z with 9007199254740992%Z. lia.
  - intros i e He. rewrite lookup_dailyProgressData in He.
    destruct (daysInMonth st !! i) as [day|]; simpl in He; [|done].
    injection He as <-. simpl.
    destruct (tallyDay_bounds (habits st) (completions st) day (0, 0))
      as [H1 H2]; [simpl; lia|].
    apply percentageOf_isPercentage; [done|]. simpl in H2. lia.
  - rewrite monthlyOverallStats_unfold. cbv zeta. simpl.
    destruct (tallyDays_bounds (daysInMonth st) (habits st) (completions st) (0, 0))
      as [H1 H2]; [simpl; lia|].
    apply percentageOf_isPercentage; [done|].
    eapply month_total_small; [apply eachDayOfMonth_length|done|exact H2].
  - rewrite monthlyOverallStats_unfold. cbv zeta. simpl.
    destruct (tallyDays_bounds (daysInMonth st) (habits st) (completions st) (0, 0))
      as [H1 H2]; [simpl; lia|].
    destruct (_ =? 0); [exists 0%Z; split; [lia|reflexivity]|].
    apply Binary64Facts.sub_100_isPercentage.
    apply percentageOf_isPercentage; [done|].
    eapply month_total_small; [apply eachDayOfMonth_length|done|exact H2].
  - unfold yearlyStats. by rewrite length_map, length_seq.
  - intros i e He. apply lookup_yearlyStats in He as (_ & Hfold & ->).
    destruct (tallyDays_bounds
                (DateFns.eachDayOfMonth (mkDate (year (currentDate st)) i 1))
                (habits st) (completions st) (0, 0)) as [H1 H2]; [simpl; lia|].
    rewrite <- Hfold in H1, H2. simpl in H1, H2.
    apply percentageOf_isPercentage; [done|].
    eapply month_total_small; [apply eachDayOfMonth_length|done|exact H2].
Qed.

Lemma percentages_in_range_witness :
  let today := mkDate 2024 0 1 in
  let st := cycleHabitState today "1" (initialState today) in
  (Z.of_nat (length (habits st)) < 2 ^ 32)%Z
  ∧ isPercentage
      (mo_completed (monthlyOverallStats (daysInMonth st) (habits st) (completions st))).
Proof.
  cbv zeta.
  assert (Hlen : (Z.of_nat (length (habits (cycleHabitState (mkDate 2024 0 1) "1"
                    (initialState (mkDate 2024 0 1))))) < 2 ^ 32)%Z)
    by reflexivity.
  split; [exact Hlen|].
  exact (proj1 (proj2 (proj2 (percentages_in_range (mkDate 2024 0 1) _ Hlen)))).
Defined.
